(** * The poker WebSocket test harness ([test_websocket_server.py])

    A shallow embedding of [PokerServerTest]: the decoded JSON values the
    harness inspects, the Python operations it applies to them, the
    harness object with its player objects, and every method of the class
    as a computation in a state-and-exception monad.

    Scope of the model.  Each coroutine is followed in isolation: an
    [await] returns at once, so [asyncio.sleep] has no effect and no other
    task runs in the middle of a method.  What the server and the
    transport do is an input: the frames a listener receives and the way
    its stream ends are a script, and the outcome of [websockets.connect]
    and the two [json] codec functions are section variables. *)

From Stdlib Require Import ZArith QArith String List Bool Lia.
From stdpp Require Import gmap strings list fin_maps option.

Set Warnings "-register-all".
Local Open Scope string_scope.
Local Open Scope Z_scope.
Local Open Scope list_scope.

(** ** Decoded JSON values *)

(** A Python [float]: [json.loads] also accepts [NaN], [Infinity] and
    [-Infinity]; a finite float is kept as its exact rational value, which
    is what Python compares against an [int]. *)
Inductive pyfloat :=
| FNan
| FInf (negative : bool)
| FFin (q : Q).

(** What [json.loads] returns: [None], [bool], [int], [float], [str],
    [list] or [dict] with [str] keys. *)
Inductive json :=
| JNull
| JBool (b : bool)
| JInt (n : Z)
| JFloat (f : pyfloat)
| JStr (s : string)
| JList (l : list json)
| JDict (m : gmap string json).

(** ** Exceptions *)

Inductive exn :=
| ConnectionClosed              (* websockets.exceptions.ConnectionClosed *)
| NotConnected (name : string)  (* Exception("Player <name> is not connected") *)
| JSONDecodeError               (* json.loads on text that is not JSON *)
| AttributeError                (* .get / .send / .close on an object without it *)
| TypeError                     (* <= or > or len() on an unsupported operand *)
| KeyError (key : string)       (* self.players[key] *)
| TransportError (code : Z)     (* any other Exception of the transport *)
| InvalidReference              (* model only: a reference to no object *)
| KeyboardInterrupt             (* BaseException, not Exception *)
| SystemExit.                   (* BaseException, not Exception *)

(** [isinstance(e, Exception)] *)
Definition is_Exception (e : exn) : bool :=
  match e with
  | KeyboardInterrupt | SystemExit => false
  | _ => true
  end.

(** [isinstance(e, websockets.exceptions.ConnectionClosed)] *)
Definition is_ConnectionClosed (e : exn) : bool :=
  match e with
  | ConnectionClosed => true
  | _ => false
  end.

Inductive result (A : Type) :=
| Ok (a : A)
| Raise (e : exn).
Arguments Ok {A} a.
Arguments Raise {A} e.

(** ** Python operations on decoded values *)

(** [bool(v)] *)
Definition py_truthy (v : json) : bool :=
  match v with
  | JNull => false
  | JBool b => b
  | JInt n => negb (n =? 0)
  | JFloat FNan => true
  | JFloat (FInf _) => true
  | JFloat (FFin q) => negb (Qeq_bool q 0)
  | JStr s => negb (String.eqb s "")
  | JList l => match l with [] => false | _ => true end
  | JDict m => negb (bool_decide (m = ∅))
  end.

(** [a or b] *)
Definition py_or (a b : json) : json :=
  if py_truthy a then a else b.

(** [v <= n] for an [int] literal [n] *)
Definition py_le (v : json) (n : Z) : result bool :=
  match v with
  | JBool b => Ok (Z.b2z b <=? n)
  | JInt z => Ok (z <=? n)
  | JFloat FNan => Ok false
  | JFloat (FInf negative) => Ok negative
  | JFloat (FFin q) => Ok (Qle_bool q (inject_Z n))
  | _ => Raise TypeError
  end.

(** [v > n] for an [int] literal [n] *)
Definition py_gt (v : json) (n : Z) : result bool :=
  match v with
  | JBool b => Ok (n <? Z.b2z b)
  | JInt z => Ok (n <? z)
  | JFloat FNan => Ok false
  | JFloat (FInf negative) => Ok (negb negative)
  | JFloat (FFin q) => Ok (negb (Qle_bool q (inject_Z n)))
  | _ => Raise TypeError
  end.

(** [v == s] for a [str] literal [s] *)
Definition py_eq_str (v : json) (s : string) : bool :=
  match v with
  | JStr t => String.eqb t s
  | _ => false
  end.

(** [v == seat] where [seat] is an [Optional[int]] *)
Definition py_eq_seat (v : json) (seat : option Z) : bool :=
  match v, seat with
  | JNull, None => true
  | JBool b, Some n => Z.b2z b =? n
  | JInt z, Some n => z =? n
  | JFloat (FFin q), Some n => Qeq_bool q (inject_Z n)
  | _, _ => false
  end.

(** [len(v)]; for a [str] the bytes are counted here and the code points
    in Python, and the number is only logged. *)
Definition py_len (v : json) : result nat :=
  match v with
  | JStr s => Ok (String.length s)
  | JList l => Ok (List.length l)
  | JDict m => Ok (size m)
  | _ => Raise TypeError
  end.

(** [v.get(key, default)]: only a [dict] has [get]. *)
Definition py_get (v : json) (key : string) (dflt : json) : result json :=
  match v with
  | JDict m => Ok (default dflt (m !! key))
  | _ => Raise AttributeError
  end.

(** ** The harness state *)

(** The connection object of the [websockets] library, as far as the
    harness uses it: whether it is open, and the text frames handed to
    [send] so far, oldest first. *)
Record WebSocket := mkWebSocket {
  ws_open : bool;
  ws_sent : list string
}.

(** [@dataclass class TestPlayer] *)
Record TestPlayer := mkTestPlayer {
  name : string;
  websocket : option WebSocket;
  seat : option Z;
  chips : Q;
  connected : bool
}.

(** [TestPlayer(name=player_name)] *)
Definition new_TestPlayer (player_name : string) : TestPlayer :=
  {| name := player_name; websocket := None; seat := None;
     chips := 1000; connected := false |}.

Inductive test_result :=
| Passed (test : string)
| Failed (test : string) (e : exn).

(** The records written through [logger]. *)
Inductive log_entry :=
| LogConnected (player : string)
| LogConnectFailed (player : string) (e : exn)
| LogReceived (player : string) (message_type : json)
| LogGameState (n_players : nat) (pot : json)
| LogTurn (player : string)
| LogHandFinished (data : json)
| LogSent (player : string) (message_type : string)
| LogConnectionClosed (player : string)
| LogListenError (player : string) (e : exn)
| LogWarning (e : exn)
| LogInfo (text : string)
| LogSuiteFailed (e : exn)
| LogResult (r : test_result).

(** Identity of a [TestPlayer] object. *)
Definition ref := nat.

(** The [PokerServerTest] object, the player objects it and its tasks
    refer to, and the log. *)
Record World := mkWorld {
  server_url : string;
  players : gmap string ref;
  game_state : json;
  test_results : list test_result;
  running : bool;
  heap : gmap ref TestPlayer;
  log : list log_entry
}.

Definition set_players (f : gmap string ref -> gmap string ref) (w : World) : World :=
  {| server_url := server_url w; players := f (players w);
     game_state := game_state w; test_results := test_results w;
     running := running w; heap := heap w; log := log w |}.

Definition set_game_state (v : json) (w : World) : World :=
  {| server_url := server_url w; players := players w;
     game_state := v; test_results := test_results w;
     running := running w; heap := heap w; log := log w |}.

Definition set_test_results (f : list test_result -> list test_result) (w : World) : World :=
  {| server_url := server_url w; players := players w;
     game_state := game_state w; test_results := f (test_results w);
     running := running w; heap := heap w; log := log w |}.

Definition set_heap (f : gmap ref TestPlayer -> gmap ref TestPlayer) (w : World) : World :=
  {| server_url := server_url w; players := players w;
     game_state := game_state w; test_results := test_results w;
     running := running w; heap := f (heap w); log := log w |}.

Definition set_log (f : list log_entry -> list log_entry) (w : World) : World :=
  {| server_url := server_url w; players := players w;
     game_state := game_state w; test_results := test_results w;
     running := running w; heap := heap w; log := f (log w) |}.

(** [PokerServerTest(server_url)] *)
Definition new_PokerServerTest (url : string) : World :=
  {| server_url := url; players := ∅; game_state := JDict ∅;
     test_results := []; running := true; heap := ∅; log := [] |}.

Definition set_websocket (ws : option WebSocket) (p : TestPlayer) : TestPlayer :=
  {| name := name p; websocket := ws; seat := seat p;
     chips := chips p; connected := connected p |}.

Definition set_seat (s : option Z) (p : TestPlayer) : TestPlayer :=
  {| name := name p; websocket := websocket p; seat := s;
     chips := chips p; connected := connected p |}.

Definition set_connected (b : bool) (p : TestPlayer) : TestPlayer :=
  {| name := name p; websocket := websocket p; seat := seat p;
     chips := chips p; connected := b |}.

(** ** The monad of harness computations

    A computation runs on a world and leaves a world, whether it returns
    or raises: what was assigned before an exception stays assigned. *)

Definition M (A : Type) : Type := World -> World * result A.

Definition ret {A} (a : A) : M A := fun w => (w, Ok a).

Definition raise {A} (e : exn) : M A := fun w => (w, Raise e).

Definition bind {A B} (c : M A) (k : A -> M B) : M B :=
  fun w =>
    match c w with
    | (w', Ok a) => k a w'
    | (w', Raise e) => (w', Raise e)
    end.

Declare Scope harness_scope.
Delimit Scope harness_scope with harness.
Notation "x <- c ;; k" := (bind c (fun x => k))
  (at level 100, c at next level, right associativity) : harness_scope.
Notation "c ;; k" := (bind c (fun _ => k))
  (at level 100, right associativity) : harness_scope.
Local Open Scope harness_scope.

Definition lift {A} (r : result A) : M A := fun w => (w, r).

Definition modify (f : World -> World) : M unit := fun w => (f w, Ok tt).

Definition get_world : M World := fun w => (w, Ok w).

(** [try: c  except <classes selected by h>: h e] *)
Definition try_except {A} (c : M A) (h : exn -> option (M A)) : M A :=
  fun w =>
    match c w with
    | (w', Ok a) => (w', Ok a)
    | (w', Raise e) =>
        match h e with
        | Some k => k w'
        | None => (w', Raise e)
        end
    end.

(** [try: c  finally: f] *)
Definition try_finally {A} (c : M A) (f : M unit) : M A :=
  fun w =>
    match c w with
    | (w', r) =>
        match f w' with
        | (w'', Ok _) => (w'', r)
        | (w'', Raise e) => (w'', Raise e)
        end
    end.

(** [for x in xs: body x] *)
Fixpoint for_each {A} (xs : list A) (body : A -> M unit) : M unit :=
  match xs with
  | [] => ret tt
  | x :: rest => body x ;; for_each rest body
  end.

(** [logger.info(...)], [logger.warning(...)], [logger.error(...)] *)
Definition logger (e : log_entry) : M unit :=
  modify (set_log (fun l => l ++ [e])).

(** [await asyncio.sleep(seconds)] *)
Definition sleep (seconds : Q) : M unit := ret tt.

(** Reading the object a reference points to. *)
Definition read_player (r : ref) : M TestPlayer :=
  fun w =>
    match heap w !! r with
    | Some p => (w, Ok p)
    | None => (w, Raise InvalidReference)
    end.

(** Assigning to fields of the object a reference points to. *)
Definition update_player (r : ref) (f : TestPlayer -> TestPlayer) : M unit :=
  modify (set_heap (alter f r)).

(** ** The transport, as the harness drives it *)

(** [await player.websocket.send(frame)]: a closed connection raises
    [ConnectionClosed]; otherwise the frame is handed over and [send]
    returns. *)
Definition ws_send (r : ref) (frame : string) : M unit :=
  p <- read_player r ;;
  match websocket p with
  | None => raise AttributeError
  | Some ws =>
      if ws_open ws
      then update_player r (set_websocket
             (Some {| ws_open := true; ws_sent := ws_sent ws ++ [frame] |}))
      else raise ConnectionClosed
  end.

(** [await player.websocket.close()]: idempotent, never raises on a
    connection object. *)
Definition close_WebSocket (ws : WebSocket) : WebSocket :=
  {| ws_open := false; ws_sent := ws_sent ws |}.

Definition ws_close (r : ref) : M unit :=
  p <- read_player r ;;
  match websocket p with
  | None => raise AttributeError
  | Some ws => update_player r (set_websocket (Some (close_WebSocket ws)))
  end.

(** ** The methods of [PokerServerTest] *)

(** How the frame stream of a connection ends, as seen by
    [async for message in player.websocket]: the iteration stops, or the
    receive raises. *)
Inductive stream_end :=
| EndOfStream
| ReceiveRaises (e : exn).

Section Harness.

(** [json.loads] ([None] stands for [JSONDecodeError]) and [json.dumps]. *)
Context (json_loads : string -> option json) (json_dumps : json -> string).

(** [await websockets.connect(url)]: [None] when the connection is
    established, [Some e] when the call raises [e]. *)
Context (websockets_connect : string -> World -> option exn).

(** The envelope [{"messageType": message_type, "data": data}]. *)
Definition envelope (message_type : string) (data : json) : json :=
  JDict (<["messageType" := JStr message_type]> (<["data" := data]> ∅)).

(** [send_message(player, message_type, data=None)] *)
Definition send_message (player : ref) (message_type : string) (data : json) : M unit :=
  p <- read_player player ;;
  if negb (connected p) || negb (bool_decide (is_Some (websocket p)))
  then raise (NotConnected (name p))
  else
    let message := envelope message_type (py_or data (JDict ∅)) in
    ws_send player (json_dumps message) ;;
    logger (LogSent (name p) message_type).

(** [send_action(player, action, data=None)] *)
Definition send_action (player : ref) (action : string) (data : json) : M unit :=
  send_message player action data.

(** [register_player(player)] *)
Definition register_player (player : ref) : M unit :=
  p <- read_player player ;;
  send_message player "registerPlayer" (JDict {["name" := JStr (name p)]}) ;;
  sleep (1 # 10).

(** [take_seat(player, seat)] *)
Definition take_seat (player : ref) (seat_number : Z) : M unit :=
  send_message player "takeSeat" (JDict {["seat" := JInt seat_number]}) ;;
  update_player player (set_seat (Some seat_number)) ;;
  sleep (1 # 10).

(** [start_game(player)] *)
Definition start_game (player : ref) : M unit :=
  send_message player "startGame" JNull ;;
  sleep (1 # 10).

(** [auto_play(player, move_data)] *)
Definition auto_play (player : ref) (move_data : json) : M unit :=
  sleep (1 # 2) ;;
  can_check <- lift (py_get move_data "canCheck" (JBool false)) ;;
  call_amount <- lift (py_get move_data "callAmount" (JInt 0)) ;;
  min_raise <- lift (py_get move_data "minRaiseToTotalBet" (JInt 0)) ;;
  if py_truthy can_check then send_action player "check" JNull
  else
    small <- lift (py_le call_amount 50) ;;
    if small then send_action player "call" JNull
    else
      eligible <- lift (py_le call_amount 100) ;;
      raising <- (if eligible then lift (py_gt min_raise 0) else ret false) ;;
      if raising
      then send_action player "raise" (JDict {["amount" := min_raise]})
      else send_action player "fold" JNull.

(** [handle_server_message(player, message)] *)
Definition handle_server_message (player : ref) (message : json) : M unit :=
  message_type <- lift (py_get message "messageType" (JStr "")) ;;
  data <- lift (py_get message "data" (JDict ∅)) ;;
  p <- read_player player ;;
  logger (LogReceived (name p) message_type) ;;
  if py_eq_str message_type "gameState" then
    modify (set_game_state data) ;;
    seats <- lift (py_get data "players" (JDict ∅)) ;;
    n <- lift (py_len seats) ;;
    pot <- lift (py_get data "pot" (JInt 0)) ;;
    logger (LogGameState n pot)
  else if py_eq_str message_type "onmove" then
    prompt_seat <- lift (py_get data "seat" JNull) ;;
    p <- read_player player ;;
    if py_eq_seat prompt_seat (seat p)
    then logger (LogTurn (name p)) ;; auto_play player data
    else ret tt
  else if py_eq_str message_type "handWinnings" then
    logger (LogHandFinished data)
  else ret tt.

(** The body of [async for message in player.websocket] over the frames
    that arrive, in order, and the way the stream ends. *)
Fixpoint listen_loop (player : ref) (frames : list string) (fin : stream_end) : M unit :=
  match frames with
  | [] =>
      match fin with
      | EndOfStream => ret tt
      | ReceiveRaises e => raise e
      end
  | message :: rest =>
      data <- lift (match json_loads message with
                    | Some v => Ok v
                    | None => Raise JSONDecodeError
                    end) ;;
      handle_server_message player data ;;
      listen_loop player rest fin
  end.

(** [listen_for_messages(player)] *)
Definition listen_for_messages (player : ref) (frames : list string) (fin : stream_end) : M unit :=
  try_except
    (p <- read_player player ;;
     match websocket p with
     | None => raise TypeError
     | Some _ => listen_loop player frames fin
     end)
    (fun e =>
       if is_ConnectionClosed e then
         Some (p <- read_player player ;;
               logger (LogConnectionClosed (name p)) ;;
               update_player player (set_connected false))
       else if is_Exception e then
         Some (p <- read_player player ;;
               logger (LogListenError (name p) e))
       else None).

(** Allocation of a new object. *)
Definition alloc (p : TestPlayer) : M ref :=
  fun w =>
    let r := fresh (dom (heap w)) in
    (set_heap (insert r p) w, Ok r).

(** [create_player(player_name)]; the listener task it starts is a
    separate computation, [listen_for_messages]. *)
Definition create_player (player_name : string) : M ref :=
  player <- alloc (new_TestPlayer player_name) ;;
  try_except
    (w <- get_world ;;
     match websockets_connect (server_url w) w with
     | Some e => raise e
     | None =>
         update_player player
           (set_websocket (Some {| ws_open := true; ws_sent := [] |})) ;;
         update_player player (set_connected true) ;;
         modify (set_players (insert player_name player)) ;;
         logger (LogConnected player_name) ;;
         ret player
     end)
    (fun e =>
       if is_Exception e
       then Some (logger (LogConnectFailed player_name e) ;; raise e)
       else None).

(** [self.players[key]] *)
Definition lookup_player (key : string) : M ref :=
  fun w =>
    match players w !! key with
    | Some r => (w, Ok r)
    | None => (w, Raise (KeyError key))
    end.

(** [key in self.players] *)
Definition has_player (key : string) : M bool :=
  fun w => (w, Ok (bool_decide (is_Some (players w !! key)))).

(** [self.test_results.append(...)] *)
Definition record_result (r : test_result) : M unit :=
  modify (set_test_results (fun l => l ++ [r])).

(** [except Exception as e: self.test_results.append(failure)] *)
Definition report_failure (test : string) (e : exn) : option (M unit) :=
  if is_Exception e then Some (record_result (Failed test e)) else None.

(** [test_basic_connection()] *)
Definition test_basic_connection : M unit :=
  logger (LogInfo "=== Testing Basic Connection ===") ;;
  try_except
    (player <- create_player "TestPlayer1" ;;
     sleep 1 ;;
     ws_close player ;;
     record_result (Passed "Basic connection"))
    (report_failure "Basic connection").

(** [test_player_registration()] *)
Definition test_player_registration : M unit :=
  logger (LogInfo "=== Testing Player Registration ===") ;;
  try_except
    (player1 <- create_player "Alice" ;;
     player2 <- create_player "Bob" ;;
     register_player player1 ;;
     register_player player2 ;;
     sleep 1 ;;
     record_result (Passed "Player registration"))
    (report_failure "Player registration").

(** [test_seat_management()] *)
Definition test_seat_management : M unit :=
  logger (LogInfo "=== Testing Seat Management ===") ;;
  try_except
    (alice_in <- has_player "Alice" ;;
     bob_in <- (if alice_in then has_player "Bob" else ret true) ;;
     (if negb alice_in || negb bob_in
      then test_player_registration else ret tt) ;;
     alice <- lookup_player "Alice" ;;
     take_seat alice 1 ;;
     bob <- lookup_player "Bob" ;;
     take_seat bob 2 ;;
     sleep 1 ;;
     record_result (Passed "Seat management"))
    (report_failure "Seat management").

(** The seating loop of [test_game_flow], with its counter [seat]. *)
Fixpoint seat_all (names : list string) (seat_number : Z) : M unit :=
  match names with
  | [] => ret tt
  | player_name :: rest =>
      present <- has_player player_name ;;
      unseated <- (if present
                   then r <- lookup_player player_name ;;
                        p <- read_player r ;;
                        ret (negb (bool_decide (is_Some (seat p))))
                   else ret false) ;;
      if unseated
      then r <- lookup_player player_name ;;
           take_seat r seat_number ;;
           seat_all rest (seat_number + 1)
      else seat_all rest seat_number
  end.

(** [test_game_flow()] *)
Definition test_game_flow : M unit :=
  logger (LogInfo "=== Testing Game Flow ===") ;;
  try_except
    (let players_to_create := ["Charlie"; "Dave"; "Eve"; "Frank"] in
     for_each players_to_create
       (fun player_name =>
          present <- has_player player_name ;;
          if present then ret tt
          else player <- create_player player_name ;;
               register_player player) ;;
     seat_all players_to_create 3 ;;
     alice <- lookup_player "Alice" ;;
     start_game alice ;;
     logger (LogInfo "Letting game run for 30 seconds...") ;;
     sleep 30 ;;
     record_result (Passed "Game flow"))
    (report_failure "Game flow").

(** [test_manual_actions()] *)
Definition test_manual_actions : M unit :=
  logger (LogInfo "=== Testing Manual Actions ===") ;;
  try_except
    (alice <- create_player "ManualAlice" ;;
     bob <- create_player "ManualBob" ;;
     register_player alice ;;
     register_player bob ;;
     take_seat alice 1 ;;
     take_seat bob 2 ;;
     start_game alice ;;
     sleep 2 ;;
     try_except
       (send_action alice "check" JNull ;;
        sleep 1 ;;
        send_action bob "raise" (JDict {["amount" := JInt 20]}) ;;
        sleep 1 ;;
        send_action alice "call" JNull)
       (fun e => if is_Exception e then Some (logger (LogWarning e)) else None) ;;
     record_result (Passed "Manual actions"))
    (report_failure "Manual actions").

(** The body of the loop of [cleanup]: [if player.connected and
    player.websocket: await player.websocket.close()]. *)
Definition close_player (player : ref) : M unit :=
  p <- read_player player ;;
  if connected p && bool_decide (is_Some (websocket p))
  then ws_close player
  else ret tt.

(** [cleanup()].  The dictionary is visited in key order here and in
    insertion order in Python; closing a connection touches that player
    only and does not raise, so the order is not observable. *)
Definition cleanup : M unit :=
  logger (LogInfo "Cleaning up connections...") ;;
  w <- get_world ;;
  for_each (map_to_list (players w)).*2 close_player.

(** The report at the end of [run_all_tests]. *)
Definition report : M unit :=
  logger (LogInfo "=== TEST RESULTS ===") ;;
  w <- get_world ;;
  for_each (test_results w) (fun r => logger (LogResult r)).

(** [run_all_tests()] around any scenario steps: the [try] with its two
    handlers and its [finally], then the report. *)
Definition run_scenario (steps : M unit) : M unit :=
  logger (LogInfo "Starting comprehensive poker server tests...") ;;
  try_finally
    (try_except steps
       (fun e =>
          match e with
          | KeyboardInterrupt => Some (logger (LogInfo "Tests interrupted by user"))
          | _ => if is_Exception e then Some (logger (LogSuiteFailed e)) else None
          end))
    cleanup ;;
  report.

(** [run_all_tests()] *)
Definition run_all_tests : M unit :=
  run_scenario
    (test_basic_connection ;;
     test_player_registration ;;
     test_seat_management ;;
     test_manual_actions ;;
     test_game_flow).

(** ** The decision rule, as the specification words it *)

(** A JSON number. *)
Inductive number :=
| NInt (z : Z)
| NFloat (f : pyfloat).

(** The Turn Prompt of the data model. *)
Record TurnPrompt := mkTurnPrompt {
  prompt_seat : Z;
  can_check : bool;
  call_amount : number;
  min_raise_to_total_bet : number
}.

Inductive action :=
| Check
| Call
| RaiseTo (amount : number)
| Fold.

Definition SMALL_CALL_THRESHOLD : Z := 50.
Definition RAISE_ELIGIBLE_THRESHOLD : Z := 100.

(** [x <= n] on numbers: a NaN compares false with everything. *)
Definition number_le (x : number) (n : Z) : bool :=
  match x with
  | NInt z => z <=? n
  | NFloat FNan => false
  | NFloat (FInf negative) => negative
  | NFloat (FFin q) => Qle_bool q (inject_Z n)
  end.

(** [x > n] on numbers. *)
Definition number_gt (x : number) (n : Z) : bool :=
  match x with
  | NInt z => n <? z
  | NFloat FNan => false
  | NFloat (FInf negative) => negb negative
  | NFloat (FFin q) => negb (Qle_bool q (inject_Z n))
  end.

(** The four-branch rule, with its two thresholds as parameters. *)
Definition decision (small_call_threshold raise_eligible_threshold : Z)
    (t : TurnPrompt) : action :=
  if can_check t then Check
  else if number_le (call_amount t) small_call_threshold then Call
  else if number_le (call_amount t) raise_eligible_threshold
          && number_gt (min_raise_to_total_bet t) 0
       then RaiseTo (min_raise_to_total_bet t)
  else Fold.

Definition number_json (x : number) : json :=
  match x with
  | NInt z => JInt z
  | NFloat f => JFloat f
  end.

(** The [data] object of the [onmove] envelope that carries a prompt. *)
Definition prompt_data (t : TurnPrompt) : json :=
  JDict (<["seat" := JInt (prompt_seat t)]>
         (<["canCheck" := JBool (can_check t)]>
          (<["callAmount" := number_json (call_amount t)]>
           (<["minRaiseToTotalBet" := number_json (min_raise_to_total_bet t)]> ∅)))).

(** The [onmove] envelope of a prompt. *)
Definition onmove (t : TurnPrompt) : json :=
  envelope "onmove" (prompt_data t).

(** The message type of an action, and the [data] argument the harness
    passes for it ([None] when the action carries no amount). *)
Definition action_type (a : action) : string :=
  match a with
  | Check => "check"
  | Call => "call"
  | RaiseTo _ => "raise"
  | Fold => "fold"
  end.

Definition action_data (a : action) : json :=
  match a with
  | RaiseTo amount => JDict {["amount" := number_json amount]}
  | _ => JNull
  end.

(** The outbound envelope of an action. *)
Definition action_envelope (a : action) : json :=
  match a with
  | RaiseTo amount => envelope "raise" (JDict {["amount" := number_json amount]})
  | _ => envelope (action_type a) (JDict ∅)
  end.

(** ** Vocabulary of the properties *)

(** The player object after one more frame went out on its open
    connection [ws]. *)
Definition after_send (frame : string) (ws : WebSocket) (p : TestPlayer) : TestPlayer :=
  set_websocket (Some {| ws_open := true; ws_sent := ws_sent ws ++ [frame] |}) p.

(** The world after [send_message] went through. *)
Definition sent_world (r : ref) (p : TestPlayer) (ws : WebSocket)
    (message_type : string) (data : json) (w : World) : World :=
  set_log (fun l => l ++ [LogSent (name p) message_type])
    (set_heap
       (insert r (after_send (json_dumps (envelope message_type data)) ws p)) w).

(** The world after an agent answered a prompt with action [a]. *)
Definition acted_world (r : ref) (p : TestPlayer) (ws : WebSocket)
    (a : action) (w : World) : World :=
  set_log (fun l => l ++ [LogSent (name p) (action_type a)])
    (set_heap (insert r (after_send (json_dumps (action_envelope a)) ws p)) w).

(** The three message types [handle_server_message] dispatches on. *)
Definition recognized : list json :=
  [JStr "gameState"; JStr "onmove"; JStr "handWinnings"].

(** The rest of the [gameState] branch after the assignment: the log
    line, whose f-string may raise. *)
Definition log_game_state (data : json) : M unit :=
  seats <- lift (py_get data "players" (JDict ∅)) ;;
  n <- lift (py_len seats) ;;
  pot <- lift (py_get data "pot" (JInt 0)) ;;
  logger (LogGameState n pot).

(** The [gameState] broadcast that carries snapshot [S]. *)
Definition gameState (S : json) : json := envelope "gameState" S.

(** Messages handled one after the other, each by the listener of the
    agent it reached; the tracker is the harness's one [game_state]. *)
Fixpoint deliver (messages : list (ref * json)) (w : World) : World :=
  match messages with
  | [] => w
  | (r, message) :: rest => deliver rest (fst (handle_server_message r message w))
  end.

(** ** What no method undoes

    [evolves w w']: every player object of [w] is still there in [w'],
    under the same name, and a [connected] flag that was false is
    still false. *)
Definition evolves (w w' : World) : Prop :=
  forall r p, heap w !! r = Some p ->
    exists p', heap w' !! r = Some p'
               /\ name p' = name p
               /\ (connected p = false -> connected p' = false).

(** A computation all of whose runs are related by [R]. *)
Definition preserves {A} (R : World -> World -> Prop) (c : M A) : Prop :=
  forall w, R w (fst (c w)).

(** A field update that keeps the name and does not raise the flag. *)
Definition harmless (f : TestPlayer -> TestPlayer) : Prop :=
  forall p, name (f p) = name p /\ (connected p = false -> connected (f p) = false).

(** ** What handling messages leaves alone

    [undisturbed w w']: every player object of [w] is still there in
    [w'] with the same name, seat, chips and [connected] flag; only its
    connection may have moved on. *)
Definition undisturbed (w w' : World) : Prop :=
  forall r p, heap w !! r = Some p ->
    exists p', heap w' !! r = Some p'
               /\ name p' = name p /\ seat p' = seat p
               /\ chips p' = chips p /\ connected p' = connected p.

(** A field update that touches the connection only. *)
Definition transport_only (f : TestPlayer -> TestPlayer) : Prop :=
  forall p, name (f p) = name p /\ seat (f p) = seat p
            /\ chips (f p) = chips p /\ connected (f p) = connected p.

(** The two handlers of [listen_for_messages], applied to the exception
    [e] that ended the loop. *)
Definition listener_handler (r : ref) (e : exn) : M unit :=
  if is_ConnectionClosed e then
    p <- read_player r ;;
    logger (LogConnectionClosed (name p)) ;;
    update_player r (set_connected false)
  else if is_Exception e then
    p <- read_player r ;;
    logger (LogListenError (name p) e)
  else raise e.

(** Whether the loop of a listener ends by raising [ConnectionClosed]. *)
Definition ends_with_ConnectionClosed (r : ref) (frames : list string)
    (fin : stream_end) (w : World) : bool :=
  match snd (listen_loop r frames fin w) with
  | Raise e => is_ConnectionClosed e
  | Ok _ => false
  end.

(** The methods of the harness, as calls with their arguments. *)
Inductive call :=
| CreatePlayer (player_name : string)
| ListenForMessages (r : ref) (frames : list string) (fin : stream_end)
| HandleServerMessage (r : ref) (message : json)
| AutoPlay (r : ref) (move_data : json)
| SendMessage (r : ref) (message_type : string) (data : json)
| SendAction (r : ref) (action_name : string) (data : json)
| RegisterPlayer (r : ref)
| TakeSeat (r : ref) (seat_number : Z)
| StartGame (r : ref)
| TestBasicConnection
| TestPlayerRegistration
| TestSeatManagement
| TestGameFlow
| TestManualActions
| Cleanup
| RunAllTests.

(** The world a call leaves, whether it returns or raises. *)
Definition perform (c : call) (w : World) : World :=
  match c with
  | CreatePlayer player_name => fst (create_player player_name w)
  | ListenForMessages r frames fin => fst (listen_for_messages r frames fin w)
  | HandleServerMessage r message => fst (handle_server_message r message w)
  | AutoPlay r move_data => fst (auto_play r move_data w)
  | SendMessage r message_type data => fst (send_message r message_type data w)
  | SendAction r action_name data => fst (send_action r action_name data w)
  | RegisterPlayer r => fst (register_player r w)
  | TakeSeat r seat_number => fst (take_seat r seat_number w)
  | StartGame r => fst (start_game r w)
  | TestBasicConnection => fst (test_basic_connection w)
  | TestPlayerRegistration => fst (test_player_registration w)
  | TestSeatManagement => fst (test_seat_management w)
  | TestGameFlow => fst (test_game_flow w)
  | TestManualActions => fst (test_manual_actions w)
  | Cleanup => fst (cleanup w)
  | RunAllTests => fst (run_all_tests w)
  end.

(** Any number of calls, one after the other. *)
Definition perform_all (calls : list call) (w : World) : World :=
  fold_left (fun w0 c => perform c w0) calls w.

(** What the loop of [cleanup] does to one player object. *)
Definition close_if_connected (p : TestPlayer) : TestPlayer :=
  if connected p && bool_decide (is_Some (websocket p))
  then set_websocket (close_WebSocket <$> websocket p) p
  else p.

(** The exceptions the two [except] clauses of [run_all_tests] catch. *)
Definition caught (e : exn) : bool :=
  match e with
  | KeyboardInterrupt => true
  | _ => is_Exception e
  end.

(** What [run_all_tests] itself ends with, given how its steps ended. *)
Definition scenario_outcome (steps_result : result unit) : result unit :=
  match steps_result with
  | Ok _ => Ok tt
  | Raise e => if caught e then Ok tt else Raise e
  end.

(** ** Vocabulary of the further properties *)

(** The object [create_player] leaves for a player once connected. *)
Definition connected_player (player_name : string) : TestPlayer :=
  {| name := player_name;
     websocket := Some {| ws_open := true; ws_sent := [] |};
     seat := None; chips := 1000; connected := true |}.

(** The world in which [create_player] calls [websockets.connect]: the
    new object exists, not yet connected. *)
Definition connecting_world (player_name : string) (w : World) : World :=
  set_heap (insert (fresh (dom (heap w))) (new_TestPlayer player_name)) w.

(** Whether [v <= n] and [v > n] are defined for [v]: it is an [int], a
    [float] or a [bool]. *)
Definition is_number (v : json) : bool :=
  match v with
  | JBool _ | JInt _ | JFloat _ => true
  | _ => false
  end.

(** Whether a decoded value is an object. *)
Definition is_object (v : json) : bool :=
  match v with
  | JDict _ => true
  | _ => false
  end.

(** The world after [handle_server_message] logged an [onmove] it takes
    as addressed to [p]. *)
Definition turn_logged (p : TestPlayer) (w : World) : World :=
  set_log (fun l => l ++ [LogTurn (name p)])
    (set_log (fun l => l ++ [LogReceived (name p) (JStr "onmove")]) w).

(** [confined r w w']: going from [w] to [w'], the player table and the
    results are the same, no object appeared, every object kept its name,
    seat, chips and [connected] flag, and every object other than [r] is
    exactly what it was, its connection and the frames sent on it
    included. *)
Definition confined (r : ref) (w w' : World) : Prop :=
  players w' = players w
  /\ test_results w' = test_results w
  /\ (forall r0, heap w !! r0 = None -> heap w' !! r0 = None)
  /\ forall r0 p0, heap w !! r0 = Some p0 ->
       exists p', heap w' !! r0 = Some p'
                  /\ name p' = name p0 /\ seat p' = seat p0
                  /\ chips p' = chips p0 /\ connected p' = connected p0
                  /\ (r0 <> r -> p' = p0).

(** A computation that raises nothing but exceptions satisfying [P]. *)
Definition raises_only {A} (P : exn -> Prop) (c : M A) : Prop :=
  forall w e, snd (c w) = Raise e -> P e.

(** What the loop of a listener can raise: an [Exception], or whatever
    the receive raised at the end of the stream. *)
Definition loop_may_raise (fin : stream_end) (e : exn) : Prop :=
  is_Exception e = true \/ fin = ReceiveRaises e.

(** The references held by the player table. *)
Definition table_refs (w : World) : list ref := (map_to_list (players w)).*2.

(** Every entry of the player table refers to an object; in Python a
    reference always does. *)
Definition table_valid (w : World) : Prop :=
  forall key r, players w !! key = Some r -> is_Some (heap w !! r).

(** What [cleanup] makes of the object at [r]. *)
Definition cleaned (w : World) (r : ref) (p : TestPlayer) : TestPlayer :=
  if bool_decide (r ∈ table_refs w) then close_if_connected p else p.

(** A test method reported on test [t]: it returned, and the last thing
    it did was to append its verdict, passed or failed, to the results. *)
Definition reports (t : string) (out : World * result unit) : Prop :=
  snd out = Ok tt
  /\ exists (w0 : World) (x : test_result),
       fst out = set_test_results (fun l => l ++ [x]) w0
       /\ (x = Passed t \/ exists e, x = Failed t e).

(** A computation that, when it returns, has just recorded that test [t]
    passed. *)
Definition records_pass {A} (t : string) (c : M A) : Prop :=
  forall w w' a, c w = (w', Ok a) ->
    exists w0, w' = set_test_results (fun l => l ++ [Passed t]) w0.

(** Being an [Exception]. *)
Definition an_Exception (e : exn) : Prop := is_Exception e = true.

(** [keeps_valid w w']: if every entry of the table referred to an
    object in [w], so it does in [w']. *)
Definition keeps_valid (w w' : World) : Prop := table_valid w -> table_valid w'.

(** The five steps of [run_all_tests]. *)
Definition all_tests : M unit :=
  test_basic_connection ;;
  test_player_registration ;;
  test_seat_management ;;
  test_manual_actions ;;
  test_game_flow.

(** [same_snapshot w w']: the tracker's snapshot did not change. *)
Definition same_snapshot (w w' : World) : Prop := game_state w' = game_state w.

(** [no_new_Alice w w']: if no player called Alice was in the table in
    [w], none is in [w']. *)
Definition no_new_Alice (w w' : World) : Prop :=
  players w !! "Alice" = None -> players w' !! "Alice" = None.

(** The bodies of the [try] blocks of the five test methods. *)
Definition basic_connection_body : M unit :=
  player <- create_player "TestPlayer1" ;;
  sleep 1 ;;
  ws_close player ;;
  record_result (Passed "Basic connection").

Definition player_registration_body : M unit :=
  player1 <- create_player "Alice" ;;
  player2 <- create_player "Bob" ;;
  register_player player1 ;;
  register_player player2 ;;
  sleep 1 ;;
  record_result (Passed "Player registration").

Definition seat_management_body : M unit :=
  alice_in <- has_player "Alice" ;;
  bob_in <- (if alice_in then has_player "Bob" else ret true) ;;
  (if negb alice_in || negb bob_in
   then test_player_registration else ret tt) ;;
  alice <- lookup_player "Alice" ;;
  take_seat alice 1 ;;
  bob <- lookup_player "Bob" ;;
  take_seat bob 2 ;;
  sleep 1 ;;
  record_result (Passed "Seat management").

Definition game_flow_body : M unit :=
  let players_to_create := ["Charlie"; "Dave"; "Eve"; "Frank"] in
  for_each players_to_create
    (fun player_name =>
       present <- has_player player_name ;;
       if present then ret tt
       else player <- create_player player_name ;;
            register_player player) ;;
  seat_all players_to_create 3 ;;
  alice <- lookup_player "Alice" ;;
  start_game alice ;;
  logger (LogInfo "Letting game run for 30 seconds...") ;;
  sleep 30 ;;
  record_result (Passed "Game flow").

Definition manual_actions_body : M unit :=
  alice <- create_player "ManualAlice" ;;
  bob <- create_player "ManualBob" ;;
  register_player alice ;;
  register_player bob ;;
  take_seat alice 1 ;;
  take_seat bob 2 ;;
  start_game alice ;;
  sleep 2 ;;
  try_except
    (send_action alice "check" JNull ;;
     sleep 1 ;;
     send_action bob "raise" (JDict {["amount" := JInt 20]}) ;;
     sleep 1 ;;
     send_action alice "call" JNull)
    (fun e => if is_Exception e then Some (logger (LogWarning e)) else None) ;;
  record_result (Passed "Manual actions").

(** The verdict of a test method that announces itself with [banner],
    runs [body] in a [try] and reports on test [t]; [out] is what the
    method made of [w].  If the body ran through, the method returns in
    the world the body left, and the last thing the body did was to
    append [Passed t]; if the body raised [e], the method appends
    [Failed t e] to the results the body left and returns. *)
Definition test_verdict (banner t : string) (body : M unit) (w : World)
    (out : World * result unit) : Prop :=
  match body (set_log (fun l => l ++ [LogInfo banner]) w) with
  | (w2, Ok _) =>
      out = (w2, Ok tt)
      /\ exists w0, w2 = set_test_results (fun l => l ++ [Passed t]) w0
  | (w2, Raise e) =>
      out = (set_test_results (fun l => l ++ [Failed t e]) w2, Ok tt)
  end.

(** ** Values for concrete runs *)

(** A decoder given by a table of frames and what they decode to; any
    other text is not JSON. *)
Definition table_loads (table : list (string * json)) (text : string) : option json :=
  snd <$> List.find (fun entry => String.eqb (fst entry) text) table.

(** An encoder that writes the message type of an envelope. *)
Definition type_dumps (v : json) : string :=
  match v with
  | JDict m =>
      match m !! "messageType" with
      | Some (JStr message_type) => message_type
      | _ => "?"
      end
  | _ => "?"
  end.

(** A server that accepts every connection. *)
Definition always_connects (url : string) (w : World) : option exn := None.

(** Alice, connected and seated at seat 1, and a harness that knows her. *)
Definition alice_connection : WebSocket := {| ws_open := true; ws_sent := [] |}.

Definition alice : TestPlayer :=
  {| name := "Alice"; websocket := Some alice_connection; seat := Some 1;
     chips := 1000; connected := true |}.

Definition one_agent : World :=
  {| server_url := "ws://localhost:8888"; players := {["Alice" := 0%nat]};
     game_state := JDict ∅; test_results := []; running := true;
     heap := {[0%nat := alice]}; log := [] |}.

(** The only snapshot of the decoder used below. *)
Definition snapshot : json := JDict {["pot" := JInt 10]}.

Definition one_snapshot : string -> option json :=
  table_loads [("snapshot", gameState snapshot)].

(** A server that refuses every connection. *)
Definition always_refuses (url : string) (w : World) : option exn :=
  Some (TransportError 111).

(** Alice after her connection was closed under her: still marked
    connected. *)
Definition stale_connection : WebSocket := {| ws_open := false; ws_sent := [] |}.

Definition stale_alice : TestPlayer := set_websocket (Some stale_connection) alice.

Definition stale_agent : World := set_heap (insert 0%nat stale_alice) one_agent.

(** Alice before she took a seat. *)
Definition unseated_alice : TestPlayer := set_seat None alice.

Definition unseated_agent : World := set_heap (insert 0%nat unseated_alice) one_agent.

(** A prompt for seat 1. *)
Definition seat_one_prompt : TurnPrompt :=
  {| prompt_seat := 1; can_check := false;
     call_amount := NInt 20; min_raise_to_total_bet := NInt 40 |}.

(** A decoder that knows a snapshot, a prompt and a list. *)
Definition three_frames : string -> option json :=
  table_loads [("snapshot", gameState snapshot);
               ("prompt", onmove seat_one_prompt);
               ("list", JList [])].

(** A server that refuses the connection asked for when the harness
    holds three player objects, and accepts every other one.  In
    [run_all_tests] on a new harness that is the second connection of
    the first [test_player_registration], Bob's. *)
Definition refuses_second_registration (url : string) (w : World) : option exn :=
  if bool_decide (size (heap w) = 3%nat) then Some (TransportError 111) else None.

(** * Properties *)

(** ** Reading the fields of a prompt *)

Lemma prompt_get_canCheck t dflt :
  py_get (prompt_data t) "canCheck" dflt = Ok (JBool (can_check t)).
Proof. reflexivity. Qed.

Lemma prompt_get_callAmount t dflt :
  py_get (prompt_data t) "callAmount" dflt = Ok (number_json (call_amount t)).
Proof. reflexivity. Qed.

Lemma prompt_get_minRaise t dflt :
  py_get (prompt_data t) "minRaiseToTotalBet" dflt
  = Ok (number_json (min_raise_to_total_bet t)).
Proof. reflexivity. Qed.

Lemma prompt_get_seat t dflt :
  py_get (prompt_data t) "seat" dflt = Ok (JInt (prompt_seat t)).
Proof. reflexivity. Qed.

Lemma py_le_number x n : py_le (number_json x) n = Ok (number_le x n).
Proof. destruct x as [z|[| |]]; reflexivity. Qed.

Lemma py_gt_number x n : py_gt (number_json x) n = Ok (number_gt x n).
Proof. destruct x as [z|[| |]]; reflexivity. Qed.

(** The branches of [auto_play], read off a prompt. *)
Lemma auto_play_decides (player : ref) (t : TurnPrompt) (w : World) :
  let a := decision SMALL_CALL_THRESHOLD RAISE_ELIGIBLE_THRESHOLD t in
  auto_play player (prompt_data t) w
  = send_action player (action_type a) (action_data a) w.
Proof.
  unfold auto_play, decision, sleep, bind, ret, lift.
  rewrite prompt_get_canCheck, prompt_get_callAmount, prompt_get_minRaise.
  cbn [py_truthy].
  destruct (can_check t); [reflexivity|].
  rewrite !py_le_number.
  unfold SMALL_CALL_THRESHOLD, RAISE_ELIGIBLE_THRESHOLD.
  destruct (number_le (call_amount t) 50); [reflexivity|].
  destruct (number_le (call_amount t) 100); cbn [andb]; [|reflexivity].
  rewrite py_gt_number.
  destruct (number_gt (min_raise_to_total_bet t) 0); reflexivity.
Qed.

(** C1: on every Turn Prompt, [auto_play] does exactly what sending the
    action of the four-branch rule with thresholds 50 and 100 does:
    check when [can_check]; else call when [call_amount <= 50]; else
    raise to [min_raise_to_total_bet] when [call_amount <= 100] and
    [min_raise_to_total_bet > 0]; else fold. *)
Theorem auto_play_four_branch_rule (player : ref) (t : TurnPrompt) (w : World) :
  let a := decision SMALL_CALL_THRESHOLD RAISE_ELIGIBLE_THRESHOLD t in
  auto_play player (prompt_data t) w
  = send_action player (action_type a) (action_data a) w.
Proof. apply auto_play_decides. Qed.

(** ** Sending *)

Lemma alter_lookup_insert {A} (f : A -> A) (m : gmap ref A) (r : ref) (x : A) :
  m !! r = Some x -> alter f r m = <[r := f x]> m.
Proof.
  intros Hx. apply map_eq. intros i.
  destruct (decide (r = i)) as [->|Hne].
  - rewrite lookup_alter_eq, lookup_insert_eq, Hx. reflexivity.
  - rewrite lookup_alter_ne, lookup_insert_ne by assumption. reflexivity.
Qed.

Lemma read_player_Some r p w :
  heap w !! r = Some p -> read_player r w = (w, Ok p).
Proof. intros H. unfold read_player. rewrite H. reflexivity. Qed.

Lemma ws_send_open r p ws frame w :
  heap w !! r = Some p -> websocket p = Some ws -> ws_open ws = true ->
  ws_send r frame w = (set_heap (insert r (after_send frame ws p)) w, Ok tt).
Proof.
  intros Hp Hws Hopen. unfold ws_send, bind.
  rewrite (read_player_Some _ _ _ Hp), Hws, Hopen.
  unfold update_player, modify, set_heap. cbn.
  rewrite (alter_lookup_insert _ _ _ _ Hp). reflexivity.
Qed.

Lemma ws_send_closed r p ws frame w :
  heap w !! r = Some p -> websocket p = Some ws -> ws_open ws = false ->
  ws_send r frame w = (w, Raise ConnectionClosed).
Proof.
  intros Hp Hws Hopen. unfold ws_send, bind.
  rewrite (read_player_Some _ _ _ Hp), Hws, Hopen. reflexivity.
Qed.

Lemma send_message_closed r p message_type data w :
  heap w !! r = Some p ->
  connected p = false \/ websocket p = None ->
  send_message r message_type data w = (w, Raise (NotConnected (name p))).
Proof.
  intros Hp Hclosed. unfold send_message, bind.
  rewrite (read_player_Some _ _ _ Hp).
  destruct Hclosed as [-> | ->]; [reflexivity|].
  rewrite orb_true_r. reflexivity.
Qed.

Lemma send_message_session_open r p ws message_type data w :
  heap w !! r = Some p -> connected p = true -> websocket p = Some ws ->
  send_message r message_type data w
  = (ws_send r (json_dumps (envelope message_type (py_or data (JDict ∅)))) ;;
     logger (LogSent (name p) message_type)) w.
Proof.
  intros Hp Hc Hws. unfold send_message at 1, bind at 1.
  rewrite (read_player_Some _ _ _ Hp), Hc, Hws. reflexivity.
Qed.

Lemma send_message_open r p ws message_type data w :
  heap w !! r = Some p -> connected p = true -> websocket p = Some ws ->
  ws_open ws = true ->
  send_message r message_type data w
  = (sent_world r p ws message_type (py_or data (JDict ∅)) w, Ok tt).
Proof.
  intros Hp Hc Hws Hopen.
  rewrite (send_message_session_open _ _ _ _ _ _ Hp Hc Hws).
  unfold bind. rewrite (ws_send_open _ _ _ _ _ Hp Hws Hopen). reflexivity.
Qed.

(** C8 (as the code has it): [send_message] raises the not-connected
    error exactly when [connected] is false or there is no connection
    object, and then changes nothing.  Otherwise it does nothing but hand
    the encoded envelope to the connection's [send] and log, reading no
    inbound frame: when the connection is open the one frame is appended
    and the call returns at once; when the connection was closed while
    the player is still marked connected, [send] raises
    [ConnectionClosed] and nothing is sent. *)
Theorem send_message_not_connected_iff (r : ref) (p : TestPlayer)
    (message_type : string) (data : json) (w : World) :
  heap w !! r = Some p ->
  (snd (send_message r message_type data w) = Raise (NotConnected (name p))
   <-> connected p = false \/ websocket p = None)
  /\ (connected p = false \/ websocket p = None ->
      fst (send_message r message_type data w) = w)
  /\ (forall ws, connected p = true -> websocket p = Some ws ->
      send_message r message_type data w
      = (ws_send r (json_dumps (envelope message_type (py_or data (JDict ∅)))) ;;
         logger (LogSent (name p) message_type)) w
      /\ (ws_open ws = true ->
          send_message r message_type data w
          = (sent_world r p ws message_type (py_or data (JDict ∅)) w, Ok tt))
      /\ (ws_open ws = false ->
          send_message r message_type data w = (w, Raise ConnectionClosed))).
Proof.
  intros Hp. split; [split|split].
  - intros Hraise.
    destruct (connected p) eqn:Hc; [|left; reflexivity].
    destruct (websocket p) as [ws|] eqn:Hws; [|right; reflexivity].
    exfalso. rewrite (send_message_session_open _ _ _ _ _ _ Hp Hc Hws) in Hraise.
    unfold bind in Hraise.
    destruct (ws_open ws) eqn:Hopen.
    + rewrite (ws_send_open _ _ _ _ _ Hp Hws Hopen) in Hraise. discriminate.
    + rewrite (ws_send_closed _ _ _ _ _ Hp Hws Hopen) in Hraise. discriminate.
  - intros Hclosed. rewrite (send_message_closed _ _ _ _ _ Hp Hclosed). reflexivity.
  - intros Hclosed. rewrite (send_message_closed _ _ _ _ _ Hp Hclosed). reflexivity.
  - intros ws Hc Hws. split; [|split].
    + apply (send_message_session_open _ _ _ _ _ _ Hp Hc Hws).
    + intros Hopen. apply (send_message_open _ _ _ _ _ _ Hp Hc Hws Hopen).
    + intros Hopen. rewrite (send_message_session_open _ _ _ _ _ _ Hp Hc Hws).
      unfold bind. rewrite (ws_send_closed _ _ _ _ _ Hp Hws Hopen). reflexivity.
Qed.

(** ** Acting on a prompt *)

Lemma py_truthy_singleton (k : string) (v : json) :
  py_truthy (JDict {[k := v]}) = true.
Proof.
  cbn. rewrite bool_decide_eq_false_2; [reflexivity|].
  apply map_non_empty_singleton.
Qed.

(** [data or {}] for the [data] argument of an action. *)
Lemma envelope_of_action (a : action) :
  envelope (action_type a) (py_or (action_data a) (JDict ∅)) = action_envelope a.
Proof.
  destruct a as [| |amount|]; cbn [action_type action_data action_envelope];
    [reflexivity|reflexivity| |reflexivity].
  unfold py_or. rewrite py_truthy_singleton. reflexivity.
Qed.

Lemma auto_play_open r p ws t w :
  heap w !! r = Some p -> connected p = true -> websocket p = Some ws ->
  ws_open ws = true ->
  auto_play r (prompt_data t) w
  = (acted_world r p ws
       (decision SMALL_CALL_THRESHOLD RAISE_ELIGIBLE_THRESHOLD t) w, Ok tt).
Proof.
  intros Hp Hc Hws Hopen.
  rewrite auto_play_decides. cbv zeta. unfold send_action.
  rewrite (send_message_open _ _ _ _ _ _ Hp Hc Hws Hopen).
  unfold sent_world, acted_world. rewrite envelope_of_action. reflexivity.
Qed.

Lemma onmove_get_messageType t dflt :
  py_get (onmove t) "messageType" dflt = Ok (JStr "onmove").
Proof. reflexivity. Qed.

Lemma onmove_get_data t dflt :
  py_get (onmove t) "data" dflt = Ok (prompt_data t).
Proof. reflexivity. Qed.

(** What [handle_server_message] does with the [onmove] envelope of a
    prompt: log, compare the seats, and act when they are equal. *)
Lemma handle_onmove r p t w :
  heap w !! r = Some p ->
  handle_server_message r (onmove t) w
  = let w1 := set_log (fun l => l ++ [LogReceived (name p) (JStr "onmove")]) w in
    if py_eq_seat (JInt (prompt_seat t)) (seat p)
    then auto_play r (prompt_data t)
           (set_log (fun l => l ++ [LogTurn (name p)]) w1)
    else (w1, Ok tt).
Proof.
  intros Hp. unfold handle_server_message, bind at 1, lift at 1.
  rewrite onmove_get_messageType.
  unfold bind at 1, lift at 1. rewrite onmove_get_data.
  unfold bind at 1. rewrite (read_player_Some _ _ _ Hp).
  unfold bind at 1, logger at 1, modify at 1.
  change (py_eq_str (JStr "onmove") "gameState") with false.
  change (py_eq_str (JStr "onmove") "onmove") with true.
  cbv iota.
  unfold bind at 1, lift at 1. rewrite prompt_get_seat.
  unfold bind at 1.
  rewrite (read_player_Some r p); [|exact Hp].
  cbv zeta.
  destruct (py_eq_seat (JInt (prompt_seat t)) (seat p)); reflexivity.
Qed.

Lemma py_eq_seat_int (n : Z) (s : option Z) :
  py_eq_seat (JInt n) s = true <-> s = Some n.
Proof.
  destruct s as [m|]; cbn.
  - rewrite Z.eqb_eq. split; [intros ->; reflexivity|intros [= ->]; reflexivity].
  - split; discriminate.
Qed.

(** C7: a connected agent that receives the [onmove] envelope of a
    prompt addressed to its seat answers with exactly one action
    envelope, one of check, call, raise and fold: one frame is appended
    to its own connection and no other object changes.  When the seat
    of the prompt is not the agent's seat, no object changes at all, so
    no envelope goes out. *)
Theorem one_action_per_addressed_prompt (r : ref) (p : TestPlayer)
    (ws : WebSocket) (t : TurnPrompt) (w : World) :
  heap w !! r = Some p -> connected p = true -> websocket p = Some ws ->
  ws_open ws = true ->
  (seat p = Some (prompt_seat t) ->
   exists (a : action) (w' : World),
     handle_server_message r (onmove t) w = (w', Ok tt)
     /\ heap w' = <[r := after_send (json_dumps (action_envelope a)) ws p]> (heap w)
     /\ action_type a ∈ ["check"; "call"; "raise"; "fold"])
  /\ (seat p <> Some (prompt_seat t) ->
      exists w' : World,
        handle_server_message r (onmove t) w = (w', Ok tt)
        /\ heap w' = heap w).
Proof.
  intros Hp Hc Hws Hopen. split.
  - intros Hseat.
    exists (decision SMALL_CALL_THRESHOLD RAISE_ELIGIBLE_THRESHOLD t).
    rewrite (handle_onmove _ _ _ _ Hp). cbv zeta.
    apply py_eq_seat_int in Hseat. rewrite Hseat.
    erewrite auto_play_open; [|exact Hp|exact Hc|exact Hws|exact Hopen].
    eexists. split; [reflexivity|]. split; [reflexivity|].
    destruct (decision _ _ t); cbn [action_type]; set_solver.
  - intros Hseat.
    rewrite (handle_onmove _ _ _ _ Hp). cbv zeta.
    destruct (py_eq_seat (JInt (prompt_seat t)) (seat p)) eqn:E.
    + apply py_eq_seat_int in E. contradiction.
    + eexists. split; reflexivity.
Qed.

(** C2: an agent seated at seat 1, connected, that receives the
    [onmove] envelope with seat 1, canCheck true, callAmount 0 and
    minRaiseToTotalBet 0 sends exactly one frame, the envelope
    [{"messageType": "check", "data": {}}]. *)
Theorem scenario_B_check (r : ref) (p : TestPlayer) (ws : WebSocket) (w : World) :
  heap w !! r = Some p -> seat p = Some 1 -> connected p = true ->
  websocket p = Some ws -> ws_open ws = true ->
  let received :=
    envelope "onmove"
      (JDict (<["seat" := JInt 1]>
              (<["canCheck" := JBool true]>
               (<["callAmount" := JInt 0]>
                (<["minRaiseToTotalBet" := JInt 0]> ∅))))) in
  exists w' : World,
    handle_server_message r received w = (w', Ok tt)
    /\ heap w'
       = <[r := after_send (json_dumps (envelope "check" (JDict ∅))) ws p]> (heap w)
    /\ game_state w' = game_state w
    /\ players w' = players w.
Proof.
  intros Hp Hseat Hc Hws Hopen received.
  change received with
    (onmove {| prompt_seat := 1; can_check := true;
               call_amount := NInt 0; min_raise_to_total_bet := NInt 0 |}).
  rewrite (handle_onmove _ _ _ _ Hp). cbv zeta.
  rewrite Hseat. cbn [prompt_seat py_eq_seat Z.eqb Pos.eqb].
  erewrite auto_play_open; [|exact Hp|exact Hc|exact Hws|exact Hopen].
  eexists. split; [reflexivity|]. repeat split.
Qed.

(** C3: with the thresholds 50 and 100, the prompt canCheck false,
    callAmount 75, minRaiseToTotalBet 150 takes the raise branch of the
    rule, and a connected agent sends exactly the raise envelope with
    amount 150. *)
Theorem scenario_C_raise (r : ref) (p : TestPlayer) (ws : WebSocket)
    (seat_number : Z) (w : World) :
  heap w !! r = Some p -> connected p = true -> websocket p = Some ws ->
  ws_open ws = true ->
  let t := {| prompt_seat := seat_number; can_check := false;
              call_amount := NInt 75; min_raise_to_total_bet := NInt 150 |} in
  decision 50 100 t = RaiseTo (NInt 150)
  /\ auto_play r (prompt_data t) w
     = send_action r "raise" (JDict {["amount" := JInt 150]}) w
  /\ exists w' : World,
       auto_play r (prompt_data t) w = (w', Ok tt)
       /\ heap w'
          = <[r := after_send
                     (json_dumps (envelope "raise" (JDict {["amount" := JInt 150]})))
                     ws p]> (heap w).
Proof.
  intros Hp Hc Hws Hopen t. split; [reflexivity|]. split.
  - rewrite auto_play_decides. reflexivity.
  - rewrite (auto_play_open _ _ _ _ _ Hp Hc Hws Hopen).
    eexists. split; reflexivity.
Qed.

(** ** Messages that are not dispatched *)

Lemma py_eq_str_false (v : json) (s : string) :
  v <> JStr s -> py_eq_str v s = false.
Proof.
  intros Hne. destruct v; try reflexivity. cbn.
  apply String.eqb_neq. congruence.
Qed.

(** C10: when the [messageType] of an inbound envelope is absent or is
    none of gameState, onmove and handWinnings, handling it only writes
    the one "received" log record: the snapshot, every player object
    (seat, chips, connected flag, connection and the frames sent on it),
    the player table and the results are unchanged, and the handler
    returns normally. *)
Theorem unrecognized_message_changes_nothing (r : ref) (p : TestPlayer)
    (m : gmap string json) (w : World) :
  heap w !! r = Some p ->
  (m !! "messageType" = None
   \/ exists v, m !! "messageType" = Some v /\ v ∉ recognized) ->
  exists w' : World,
    handle_server_message r (JDict m) w = (w', Ok tt)
    /\ game_state w' = game_state w
    /\ heap w' = heap w
    /\ players w' = players w
    /\ test_results w' = test_results w
    /\ log w' = log w ++ [LogReceived (name p) (default (JStr "") (m !! "messageType"))].
Proof.
  intros Hp Htype.
  assert (Hnot : default (JStr "") (m !! "messageType") ∉ recognized).
  { destruct Htype as [-> | (v & -> & Hv)]; [|exact Hv].
    cbn. unfold recognized. rewrite !elem_of_cons, elem_of_nil.
    intros [H|[H|[H|[]]]]; discriminate H. }
  unfold recognized in Hnot. rewrite !elem_of_cons, elem_of_nil in Hnot.
  unfold handle_server_message, bind at 1, lift at 1. cbn [py_get].
  unfold bind at 1, lift at 1.
  unfold bind at 1. rewrite (read_player_Some _ _ _ Hp).
  unfold bind at 1, logger at 1, modify at 1.
  rewrite !py_eq_str_false by (intros E; apply Hnot; rewrite E; tauto).
  eexists. split; [reflexivity|]. repeat split.
Qed.

(** ** The game-state tracker *)

Lemma log_game_state_frame data w :
  game_state (fst (log_game_state data w)) = game_state w
  /\ heap (fst (log_game_state data w)) = heap w.
Proof.
  unfold log_game_state, bind, lift, logger, modify.
  destruct (py_get data "players" (JDict ∅)) as [seats|]; [|split; reflexivity].
  destruct (py_len seats); [|split; reflexivity].
  destruct (py_get data "pot" (JInt 0)); split; reflexivity.
Qed.

Lemma handle_gameState r p (m : gmap string json) w :
  heap w !! r = Some p ->
  m !! "messageType" = Some (JStr "gameState") ->
  handle_server_message r (JDict m) w
  = log_game_state (default (JDict ∅) (m !! "data"))
      (set_game_state (default (JDict ∅) (m !! "data"))
         (set_log (fun l => l ++ [LogReceived (name p) (JStr "gameState")]) w)).
Proof.
  intros Hp Htype.
  unfold handle_server_message, bind at 1, lift at 1. cbn [py_get].
  unfold bind at 1, lift at 1.
  unfold bind at 1. rewrite (read_player_Some _ _ _ Hp).
  unfold bind at 1, logger at 1, modify at 1.
  rewrite Htype. reflexivity.
Qed.

(** [update(S); current() == S], for one message. *)
Lemma gameState_replaces_snapshot r p (m : gmap string json) w :
  heap w !! r = Some p ->
  m !! "messageType" = Some (JStr "gameState") ->
  game_state (fst (handle_server_message r (JDict m) w))
  = default (JDict ∅) (m !! "data").
Proof.
  intros Hp Htype. rewrite (handle_gameState _ _ _ _ Hp Htype).
  rewrite (proj1 (log_game_state_frame _ _)). reflexivity.
Qed.

#[local] Instance evolves_preorder : PreOrder evolves.
Proof.
  split.
  - intros w r p Hp. exists p. auto.
  - intros w1 w2 w3 H12 H23 r p Hp.
    destruct (H12 r p Hp) as (p2 & Hp2 & Hn2 & Hc2).
    destruct (H23 r p2 Hp2) as (p3 & Hp3 & Hn3 & Hc3).
    exists p3. split; [exact Hp3|]. split; [congruence|auto].
Qed.

Section Preserves.
Context (R : World -> World -> Prop) `{!PreOrder R}.

Lemma preserves_ret {A} (a : A) : preserves R (ret a).
Proof. intros w. reflexivity. Qed.

Lemma preserves_raise {A} (e : exn) : preserves R (@raise A e).
Proof. intros w. reflexivity. Qed.

Lemma preserves_lift {A} (x : result A) : preserves R (lift x).
Proof. intros w. reflexivity. Qed.

Lemma preserves_get_world : preserves R get_world.
Proof. intros w. reflexivity. Qed.

Lemma preserves_sleep (d : Q) : preserves R (sleep d).
Proof. intros w. reflexivity. Qed.

Lemma preserves_read_player r : preserves R (read_player r).
Proof. intros w. unfold read_player. destruct (heap w !! r); reflexivity. Qed.

Lemma preserves_bind {A B} (c : M A) (k : A -> M B) :
  preserves R c -> (forall a, preserves R (k a)) -> preserves R (bind c k).
Proof.
  intros Hc Hk w. unfold bind.
  specialize (Hc w). destruct (c w) as [w1 [a|e]]; cbn in Hc.
  - etransitivity; [exact Hc|apply Hk].
  - exact Hc.
Qed.

Lemma preserves_try_except {A} (c : M A) (h : exn -> option (M A)) :
  preserves R c -> (forall e k, h e = Some k -> preserves R k) ->
  preserves R (try_except c h).
Proof.
  intros Hc Hh w. unfold try_except.
  specialize (Hc w). destruct (c w) as [w1 [a|e]]; cbn in Hc; [exact Hc|].
  destruct (h e) as [k|] eqn:Hk; [|exact Hc].
  etransitivity; [exact Hc|apply (Hh e k Hk)].
Qed.

Lemma preserves_try_finally {A} (c : M A) (f : M unit) :
  preserves R c -> preserves R f -> preserves R (try_finally c f).
Proof.
  intros Hc Hf w. unfold try_finally.
  specialize (Hc w). destruct (c w) as [w1 res]; cbn in Hc.
  specialize (Hf w1). destruct (f w1) as [w2 [[]|e]]; cbn in Hf;
    (etransitivity; [exact Hc|exact Hf]).
Qed.

Lemma preserves_for_each {A} (xs : list A) (body : A -> M unit) :
  (forall x, preserves R (body x)) -> preserves R (for_each xs body).
Proof.
  intros Hbody. induction xs as [|x xs IH]; cbn [for_each].
  - apply preserves_ret.
  - apply preserves_bind; [apply Hbody|intros _; exact IH].
Qed.

Lemma preserves_if {A} (b : bool) (c1 c2 : M A) :
  preserves R c1 -> preserves R c2 -> preserves R (if b then c1 else c2).
Proof. destruct b; auto. Qed.
End Preserves.

Lemma evolves_same_heap w w' : heap w' = heap w -> evolves w w'.
Proof. intros H r p Hp. exists p. rewrite H. auto. Qed.

Lemma evolves_logger e : preserves evolves (logger e).
Proof. intros w. apply evolves_same_heap. reflexivity. Qed.

Lemma evolves_set_game_state v : preserves evolves (modify (set_game_state v)).
Proof. intros w. apply evolves_same_heap. reflexivity. Qed.

Lemma evolves_record_result res : preserves evolves (record_result res).
Proof. intros w. apply evolves_same_heap. reflexivity. Qed.

Lemma evolves_set_players f : preserves evolves (modify (set_players f)).
Proof. intros w. apply evolves_same_heap. reflexivity. Qed.

Lemma evolves_has_player k : preserves evolves (has_player k).
Proof. intros w. reflexivity. Qed.

Lemma evolves_lookup_player k : preserves evolves (lookup_player k).
Proof. intros w. unfold lookup_player. destruct (players w !! k); reflexivity. Qed.

Lemma evolves_update_player r f :
  harmless f -> preserves evolves (update_player r f).
Proof.
  intros Hf w r' p Hp. cbn.
  destruct (decide (r = r')) as [->|Hne].
  - exists (f p). rewrite lookup_alter_eq, Hp. split; [reflexivity|apply Hf].
  - exists p. rewrite lookup_alter_ne by assumption. auto.
Qed.

Lemma harmless_set_websocket ws : harmless (set_websocket ws).
Proof. intros p. split; auto. Qed.

Lemma harmless_set_seat s : harmless (set_seat s).
Proof. intros p. split; auto. Qed.

Lemma harmless_disconnect : harmless (set_connected false).
Proof. intros p. split; auto. Qed.

Create HintDb evolve.
#[local] Hint Resolve evolves_logger evolves_set_game_state evolves_record_result
  evolves_set_players evolves_has_player evolves_lookup_player
  evolves_update_player harmless_set_websocket harmless_set_seat
  harmless_disconnect : evolve.

(** Walks through a method body: binds, handlers, loops and branches. *)
Ltac evolve_step :=
  match goal with
  | |- preserves ?R (ret _) => apply (preserves_ret R)
  | |- preserves ?R (raise _) => apply (preserves_raise R)
  | |- preserves ?R (lift _) => apply (preserves_lift R)
  | |- preserves ?R get_world => apply (preserves_get_world R)
  | |- preserves ?R (sleep _) => apply (preserves_sleep R)
  | |- preserves ?R (read_player _) => apply (preserves_read_player R)
  | |- preserves ?R (bind _ _) => apply (preserves_bind R); [|intros ?]
  | |- preserves ?R (try_except _ _) =>
      apply (preserves_try_except R); [|intros ? ? ?]
  | |- preserves ?R (try_finally _ _) => apply (preserves_try_finally R)
  | |- preserves ?R (for_each _ _) => apply (preserves_for_each R); intros ?
  | |- preserves _ (if ?b then _ else _) => destruct b
  | |- preserves _ (match ?x with _ => _ end) => destruct x
  | H : (if ?b then _ else _) = Some _ |- _ => destruct b; [|try discriminate H]
  | H : match ?x with _ => _ end = Some _ |- _ => destruct x; cbn in H
  | H : Some _ = Some _ |- _ => injection H as <-
  | H : None = Some _ |- _ => discriminate H
  | H : report_failure _ _ = Some _ |- _ => unfold report_failure in H
  | |- _ => solve [auto with evolve]
  end.

Ltac evolve := repeat evolve_step.

Lemma evolves_ws_send r frame : preserves evolves (ws_send r frame).
Proof. unfold ws_send. evolve. Qed.

Lemma evolves_ws_close r : preserves evolves (ws_close r).
Proof. unfold ws_close. evolve. Qed.

#[local] Hint Resolve evolves_ws_send evolves_ws_close : evolve.

Lemma evolves_send_message r message_type data :
  preserves evolves (send_message r message_type data).
Proof. unfold send_message. evolve. Qed.

#[local] Hint Resolve evolves_send_message : evolve.

Lemma evolves_send_action r a data : preserves evolves (send_action r a data).
Proof. unfold send_action. evolve. Qed.

#[local] Hint Resolve evolves_send_action : evolve.

Lemma evolves_register_player r : preserves evolves (register_player r).
Proof. unfold register_player. evolve. Qed.

Lemma evolves_take_seat r n : preserves evolves (take_seat r n).
Proof. unfold take_seat. evolve. Qed.

Lemma evolves_start_game r : preserves evolves (start_game r).
Proof. unfold start_game. evolve. Qed.

Lemma evolves_auto_play r data : preserves evolves (auto_play r data).
Proof. unfold auto_play. evolve. Qed.

#[local] Hint Resolve evolves_register_player evolves_take_seat
  evolves_start_game evolves_auto_play : evolve.

Lemma evolves_handle_server_message r message :
  preserves evolves (handle_server_message r message).
Proof. unfold handle_server_message. evolve. Qed.

#[local] Hint Resolve evolves_handle_server_message : evolve.

Lemma evolves_listen_loop r frames fin :
  preserves evolves (listen_loop r frames fin).
Proof.
  induction frames as [|message rest IH]; cbn [listen_loop]; evolve.
Qed.

#[local] Hint Resolve evolves_listen_loop : evolve.

Lemma evolves_listen_for_messages r frames fin :
  preserves evolves (listen_for_messages r frames fin).
Proof. unfold listen_for_messages. evolve. Qed.

(** A new object does not disturb the ones that exist. *)
Lemma evolves_fresh_object (w : World) (f : TestPlayer -> TestPlayer)
    (p : TestPlayer) (w' : World) :
  heap w' = alter f (fresh (dom (heap w))) (<[fresh (dom (heap w)) := p]> (heap w)) ->
  evolves w w'.
Proof.
  intros Hheap r q Hq. exists q. rewrite Hheap.
  assert (Hne : fresh (dom (heap w)) <> r).
  { intros <-. apply (is_fresh (dom (heap w))).
    apply elem_of_dom. rewrite Hq. eauto. }
  rewrite lookup_alter_ne, lookup_insert_ne by assumption. auto.
Qed.

Lemma evolves_create_player player_name :
  preserves evolves (create_player player_name).
Proof.
  intros w. unfold create_player, bind at 1, alloc.
  unfold try_except, bind at 1, get_world.
  cbn [server_url set_heap].
  destruct (websockets_connect (server_url w) _) as [e|].
  - cbn. destruct (is_Exception e); cbn;
      apply (evolves_fresh_object w id (new_TestPlayer player_name));
      cbn; rewrite alter_id; reflexivity.
  - cbn.
    apply (evolves_fresh_object w
             (fun p => set_connected true
                (set_websocket (Some {| ws_open := true; ws_sent := [] |}) p))
             (new_TestPlayer player_name)).
    cbn. rewrite alter_alter_eq. reflexivity.
Qed.

#[local] Hint Resolve evolves_create_player : evolve.

Lemma evolves_test_basic_connection : preserves evolves test_basic_connection.
Proof. unfold test_basic_connection. evolve. Qed.

Lemma evolves_test_player_registration :
  preserves evolves test_player_registration.
Proof. unfold test_player_registration. evolve. Qed.

#[local] Hint Resolve evolves_test_basic_connection
  evolves_test_player_registration : evolve.

Lemma evolves_test_seat_management : preserves evolves test_seat_management.
Proof. unfold test_seat_management. evolve. Qed.

Lemma evolves_seat_all names n : preserves evolves (seat_all names n).
Proof.
  revert n. induction names as [|player_name rest IH]; intros n;
    cbn [seat_all]; evolve.
Qed.

#[local] Hint Resolve evolves_test_seat_management evolves_seat_all : evolve.

Lemma evolves_test_game_flow : preserves evolves test_game_flow.
Proof. unfold test_game_flow. evolve. Qed.

Lemma evolves_test_manual_actions : preserves evolves test_manual_actions.
Proof. unfold test_manual_actions. evolve. Qed.

Lemma evolves_cleanup : preserves evolves cleanup.
Proof. unfold cleanup, close_player. evolve. Qed.

#[local] Hint Resolve evolves_test_game_flow evolves_test_manual_actions
  evolves_cleanup : evolve.

Lemma evolves_run_scenario steps :
  preserves evolves steps -> preserves evolves (run_scenario steps).
Proof. intros Hsteps. unfold run_scenario, report. evolve. Qed.

Lemma evolves_run_all_tests : preserves evolves run_all_tests.
Proof. unfold run_all_tests. apply evolves_run_scenario. evolve. Qed.

#[local] Instance undisturbed_preorder : PreOrder undisturbed.
Proof.
  split.
  - intros w r p Hp. exists p. auto.
  - intros w1 w2 w3 H12 H23 r p Hp.
    destruct (H12 r p Hp) as (p2 & Hp2 & Hn2 & Hs2 & Hch2 & Hc2).
    destruct (H23 r p2 Hp2) as (p3 & Hp3 & Hn3 & Hs3 & Hch3 & Hc3).
    exists p3. repeat split; congruence.
Qed.

Lemma undisturbed_same_heap w w' : heap w' = heap w -> undisturbed w w'.
Proof. intros H r p Hp. exists p. rewrite H. auto. Qed.

Lemma undisturbed_logger e : preserves undisturbed (logger e).
Proof. intros w. apply undisturbed_same_heap. reflexivity. Qed.

Lemma undisturbed_set_game_state v :
  preserves undisturbed (modify (set_game_state v)).
Proof. intros w. apply undisturbed_same_heap. reflexivity. Qed.

Lemma undisturbed_update_player r f :
  transport_only f -> preserves undisturbed (update_player r f).
Proof.
  intros Hf w r' p Hp. cbn.
  destruct (decide (r = r')) as [->|Hne].
  - exists (f p). rewrite lookup_alter_eq, Hp. split; [reflexivity|apply Hf].
  - exists p. rewrite lookup_alter_ne by assumption. auto.
Qed.

Lemma transport_only_set_websocket ws : transport_only (set_websocket ws).
Proof. intros p. repeat split. Qed.

#[local] Hint Resolve undisturbed_logger undisturbed_set_game_state
  undisturbed_update_player transport_only_set_websocket : evolve.

Lemma undisturbed_ws_send r frame : preserves undisturbed (ws_send r frame).
Proof. unfold ws_send. evolve. Qed.

#[local] Hint Resolve undisturbed_ws_send : evolve.

Lemma undisturbed_send_message r message_type data :
  preserves undisturbed (send_message r message_type data).
Proof. unfold send_message. evolve. Qed.

#[local] Hint Resolve undisturbed_send_message : evolve.

Lemma undisturbed_auto_play r data : preserves undisturbed (auto_play r data).
Proof. unfold auto_play, send_action. evolve. Qed.

#[local] Hint Resolve undisturbed_auto_play : evolve.

Lemma undisturbed_handle_server_message r message :
  preserves undisturbed (handle_server_message r message).
Proof. unfold handle_server_message. evolve. Qed.

#[local] Hint Resolve undisturbed_handle_server_message : evolve.

Lemma undisturbed_listen_loop r frames fin :
  preserves undisturbed (listen_loop r frames fin).
Proof.
  induction frames as [|message rest IH]; cbn [listen_loop]; evolve.
Qed.

Lemma undisturbed_deliver messages w : undisturbed w (deliver messages w).
Proof.
  revert w. induction messages as [|[r message] rest IH]; intros w;
    cbn [deliver].
  - reflexivity.
  - etransitivity; [apply undisturbed_handle_server_message|apply IH].
Qed.

(** C4: whatever was delivered before, and to whichever agents, once a
    [gameState] broadcast has been handled the tracker's snapshot is
    exactly the payload of that broadcast: the assignment replaces the
    previous snapshot whole and looks at nothing else. *)
Theorem tracker_holds_latest_snapshot (earlier : list (ref * json))
    (r : ref) (S : json) (w : World) :
  is_Some (heap w !! r) ->
  game_state (deliver (earlier ++ [(r, gameState S)]) w) = S.
Proof.
  intros [p Hp].
  assert (Hdeliver : forall l1 l2 w0,
             deliver (l1 ++ l2) w0 = deliver l2 (deliver l1 w0)).
  { induction l1 as [|[r1 m1] l1 IH]; intros l2 w0; cbn; [reflexivity|apply IH]. }
  rewrite Hdeliver. cbn [deliver].
  destruct (undisturbed_deliver earlier w r p Hp) as (p' & Hp' & _).
  unfold gameState, envelope.
  rewrite (gameState_replaces_snapshot _ p' _ _ Hp') by reflexivity.
  reflexivity.
Qed.

(** ** The listener and the [connected] flag *)

Lemma listen_for_messages_outcome r p frames fin w :
  heap w !! r = Some p -> is_Some (websocket p) ->
  listen_for_messages r frames fin w
  = match listen_loop r frames fin w with
    | (w1, Ok a) => (w1, Ok a)
    | (w1, Raise e) => listener_handler r e w1
    end.
Proof.
  intros Hp [ws Hws]. unfold listen_for_messages, try_except, bind at 1.
  rewrite (read_player_Some _ _ _ Hp), Hws.
  destruct (listen_loop r frames fin w) as [w1 [a|e]]; [reflexivity|].
  unfold listener_handler.
  destruct (is_ConnectionClosed e); [reflexivity|].
  destruct (is_Exception e); reflexivity.
Qed.

Lemma listener_flag r p frames fin w :
  heap w !! r = Some p -> is_Some (websocket p) ->
  exists p', heap (fst (listen_for_messages r frames fin w)) !! r = Some p'
             /\ connected p'
                = if ends_with_ConnectionClosed r frames fin w
                  then false else connected p.
Proof.
  intros Hp Hws. rewrite (listen_for_messages_outcome _ _ _ _ _ Hp Hws).
  unfold ends_with_ConnectionClosed.
  pose proof (undisturbed_listen_loop r frames fin w r p Hp)
    as (p1 & Hp1 & _ & _ & _ & Hc1).
  destruct (listen_loop r frames fin w) as [w1 [a|e]]; cbn [fst snd] in *.
  - exists p1. auto.
  - unfold listener_handler. destruct (is_ConnectionClosed e).
    + unfold bind. rewrite (read_player_Some _ _ _ Hp1). cbn.
      exists (set_connected false p1).
      rewrite lookup_alter_eq, Hp1. split; reflexivity.
    + destruct (is_Exception e).
      * unfold bind. rewrite (read_player_Some _ _ _ Hp1). cbn.
        exists p1. auto.
      * exists p1. auto.
Qed.

Lemma evolves_perform c w : evolves w (perform c w).
Proof.
  destruct c; cbn [perform].
  - apply evolves_create_player.
  - apply evolves_listen_for_messages.
  - apply evolves_handle_server_message.
  - apply evolves_auto_play.
  - apply evolves_send_message.
  - apply evolves_send_action.
  - apply evolves_register_player.
  - apply evolves_take_seat.
  - apply evolves_start_game.
  - apply evolves_test_basic_connection.
  - apply evolves_test_player_registration.
  - apply evolves_test_seat_management.
  - apply evolves_test_game_flow.
  - apply evolves_test_manual_actions.
  - apply evolves_cleanup.
  - apply evolves_run_all_tests.
Qed.

Lemma evolves_perform_all calls w : evolves w (perform_all calls w).
Proof.
  unfold perform_all. revert w.
  induction calls as [|c calls IH]; intros w; cbn [fold_left].
  - reflexivity.
  - etransitivity; [apply (evolves_perform c)|apply IH].
Qed.

(** C6 (as the code has it): when the loop of a listener ends by
    raising [ConnectionClosed], the listener sets the agent's
    [connected] flag to false; when it ends in any other way, another
    exception included, the flag keeps the value it had.  A flag that is
    false stays false through any sequence of calls of the harness's
    methods. *)
Theorem connected_flag_cleared_on_ConnectionClosed_only (r : ref)
    (p : TestPlayer) (frames : list string) (fin : stream_end) (w : World) :
  heap w !! r = Some p -> is_Some (websocket p) ->
  (exists p', heap (fst (listen_for_messages r frames fin w)) !! r = Some p'
              /\ connected p'
                 = if ends_with_ConnectionClosed r frames fin w
                   then false else connected p)
  /\ (forall (calls : list call) (r0 : ref) (p0 : TestPlayer),
        heap w !! r0 = Some p0 -> connected p0 = false ->
        exists p', heap (perform_all calls w) !! r0 = Some p'
                   /\ connected p' = false).
Proof.
  intros Hp Hws. split.
  - apply (listener_flag _ _ _ _ _ Hp Hws).
  - intros calls r0 p0 Hp0 Hc0.
    destruct (evolves_perform_all calls w r0 p0 Hp0) as (p' & Hp' & _ & Hc').
    exists p'. auto.
Qed.

(** ** The listener and the frames it cannot use *)

Lemma handle_unrecognized r p (m : gmap string json) w :
  heap w !! r = Some p ->
  default (JStr "") (m !! "messageType") ∉ recognized ->
  handle_server_message r (JDict m) w
  = (set_log
       (fun l => l ++ [LogReceived (name p) (default (JStr "") (m !! "messageType"))])
       w, Ok tt).
Proof.
  intros Hp Hnot.
  unfold recognized in Hnot. rewrite !elem_of_cons, elem_of_nil in Hnot.
  unfold handle_server_message, bind at 1, lift at 1. cbn [py_get].
  unfold bind at 1, lift at 1.
  unfold bind at 1. rewrite (read_player_Some _ _ _ Hp).
  unfold bind at 1, logger at 1, modify at 1.
  rewrite !py_eq_str_false by (intros E; apply Hnot; rewrite E; tauto).
  reflexivity.
Qed.

Lemma absent_or_unrecognized (m : gmap string json) :
  (m !! "messageType" = None
   \/ exists v, m !! "messageType" = Some v /\ v ∉ recognized) ->
  default (JStr "") (m !! "messageType") ∉ recognized.
Proof.
  intros [-> | (v & -> & Hv)]; [|exact Hv].
  cbn. unfold recognized. rewrite !elem_of_cons, elem_of_nil.
  intros [H|[H|[H|[]]]]; discriminate H.
Qed.

(** C5 (as the code has it): a frame that decodes to an object whose
    [messageType] is absent or unrecognized is logged and dropped, and
    the listener goes on with the frames that follow; a frame that is
    not JSON makes [json.loads] raise inside the loop, the handler
    around the loop logs the error, and the listener returns: the
    frames that follow are not read, and nothing but the log changes. *)
Theorem listener_skips_unrecognized_stops_on_undecodable (r : ref)
    (p : TestPlayer) (frame : string) (rest : list string)
    (fin : stream_end) (w : World) :
  heap w !! r = Some p -> is_Some (websocket p) ->
  (forall m : gmap string json,
      json_loads frame = Some (JDict m) ->
      (m !! "messageType" = None
       \/ exists v, m !! "messageType" = Some v /\ v ∉ recognized) ->
      listen_for_messages r (frame :: rest) fin w
      = listen_for_messages r rest fin
          (set_log
             (fun l => l ++ [LogReceived (name p)
                               (default (JStr "") (m !! "messageType"))]) w))
  /\ (json_loads frame = None ->
      listen_for_messages r (frame :: rest) fin w
      = (set_log (fun l => l ++ [LogListenError (name p) JSONDecodeError]) w,
         Ok tt)).
Proof.
  intros Hp Hws. split.
  - intros m Hloads Htype.
    rewrite (listen_for_messages_outcome _ _ _ _ _ Hp Hws).
    rewrite (listen_for_messages_outcome r p rest fin
               (set_log
                  (fun l => l ++ [LogReceived (name p)
                                    (default (JStr "") (m !! "messageType"))]) w)
               Hp Hws).
    cbn [listen_loop]. unfold bind at 1, lift at 1. rewrite Hloads.
    unfold bind at 1.
    rewrite (handle_unrecognized _ _ _ _ Hp (absent_or_unrecognized _ Htype)).
    reflexivity.
  - intros Hloads.
    rewrite (listen_for_messages_outcome _ _ _ _ _ Hp Hws).
    cbn [listen_loop]. unfold bind at 1, lift at 1. rewrite Hloads.
    unfold listener_handler. cbn [is_ConnectionClosed is_Exception].
    unfold bind. rewrite (read_player_Some _ _ _ Hp). reflexivity.
Qed.

(** ** Teardown *)

Lemma close_if_connected_idem p :
  close_if_connected (close_if_connected p) = close_if_connected p.
Proof.
  unfold close_if_connected.
  destruct (connected p) eqn:Hc; cbn [andb]; [|rewrite Hc; reflexivity].
  destruct (websocket p) as [ws|] eqn:Hws; cbn; [|rewrite Hc, Hws; reflexivity].
  rewrite Hc. reflexivity.
Qed.

Lemma close_player_run r p w :
  heap w !! r = Some p ->
  close_player r w = (set_heap (insert r (close_if_connected p)) w, Ok tt).
Proof.
  intros Hp. unfold close_player, close_if_connected, bind at 1.
  rewrite (read_player_Some _ _ _ Hp).
  destruct (connected p) eqn:Hc; cbn [andb].
  - destruct (websocket p) as [ws|] eqn:Hws; cbn.
    + unfold ws_close, bind. rewrite (read_player_Some _ _ _ Hp), Hws.
      unfold update_player, modify, set_heap. cbn.
      rewrite (alter_lookup_insert _ _ _ _ Hp). reflexivity.
    + unfold ret, set_heap. rewrite (insert_id _ _ _ Hp).
      destruct w; reflexivity.
  - unfold ret, set_heap. rewrite (insert_id _ _ _ Hp).
    destruct w; reflexivity.
Qed.

(** The closing loop over a list of valid references: it returns, every
    object it visited is closed if it was connected, and nothing else
    changes. *)
Lemma closing_loop (refs : list ref) (w : World) :
  (forall r, r ∈ refs -> is_Some (heap w !! r)) ->
  exists w',
    for_each refs close_player w = (w', Ok tt)
    /\ players w' = players w
    /\ game_state w' = game_state w
    /\ test_results w' = test_results w
    /\ log w' = log w
    /\ forall r p, heap w !! r = Some p ->
         heap w' !! r
         = Some (if bool_decide (r ∈ refs) then close_if_connected p else p).
Proof.
  revert w. induction refs as [|x refs IH]; intros w Hvalid.
  - exists w. cbn. repeat split; try reflexivity.
    intros r p Hp. rewrite bool_decide_eq_false_2 by apply not_elem_of_nil.
    exact Hp.
  - destruct (Hvalid x) as [px Hpx]; [left|].
    cbn [for_each]. unfold bind. rewrite (close_player_run _ _ _ Hpx).
    destruct (IH (set_heap (insert x (close_if_connected px)) w))
      as (w' & Hrun & Hpl & Hgs & Htr & Hlog & Hheap).
    { intros r Hr. cbn. rewrite lookup_insert.
      destruct (decide (x = r)); [eauto|]. apply Hvalid. right. exact Hr. }
    exists w'. rewrite Hrun. repeat split; try assumption.
    intros r p Hp.
    destruct (decide (x = r)) as [->|Hne].
    + assert (px = p) as -> by congruence.
      rewrite (Hheap r (close_if_connected p))
        by (cbn; apply lookup_insert_eq).
      rewrite (bool_decide_eq_true_2 (r ∈ r :: refs)) by left.
      destruct (bool_decide (r ∈ refs));
        [rewrite close_if_connected_idem|]; reflexivity.
    + rewrite (Hheap r p) by (cbn; rewrite lookup_insert_ne; assumption).
      rewrite (bool_decide_ext (r ∈ x :: refs) (r ∈ refs)); [reflexivity|].
      rewrite elem_of_cons. split; [|intros H; right; exact H].
      intros [E|H]; [congruence|exact H].
Qed.

Lemma cleanup_run (w : World) :
  (forall key r, players w !! key = Some r -> is_Some (heap w !! r)) ->
  exists w',
    cleanup w = (w', Ok tt)
    /\ players w' = players w
    /\ log w' = log w ++ [LogInfo "Cleaning up connections..."]
    /\ forall key r p, players w !! key = Some r -> heap w !! r = Some p ->
         heap w' !! r = Some (close_if_connected p).
Proof.
  intros Hvalid. unfold cleanup, bind at 1, logger, modify.
  unfold bind at 1, get_world.
  set (w0 := set_log (fun l => l ++ [LogInfo "Cleaning up connections..."]) w).
  assert (Hrefs : forall key r, players w !! key = Some r ->
                                r ∈ (map_to_list (players w0)).*2).
  { intros key r Hkey. apply list_elem_of_fmap. exists (key, r).
    split; [reflexivity|]. apply elem_of_map_to_list. exact Hkey. }
  destruct (closing_loop (map_to_list (players w0)).*2 w0)
    as (w' & Hrun & Hpl & _ & _ & Hlog & Hheap).
  { intros r Hr. apply list_elem_of_fmap in Hr as ([key r'] & -> & Hin).
    apply elem_of_map_to_list in Hin. apply (Hvalid key). exact Hin. }
  exists w'. split; [exact Hrun|]. split; [exact Hpl|]. split; [exact Hlog|].
  intros key r p Hkey Hp. rewrite (Hheap r p Hp).
  rewrite bool_decide_eq_true_2 by apply (Hrefs key r Hkey). reflexivity.
Qed.

Lemma log_each_run (results : list test_result) (w : World) :
  exists w', for_each results (fun r => logger (LogResult r)) w = (w', Ok tt)
             /\ heap w' = heap w
             /\ exists more, log w' = log w ++ more.
Proof.
  revert w. induction results as [|res results IH]; intros w; cbn [for_each].
  - exists w. split; [reflexivity|]. split; [reflexivity|].
    exists []. rewrite app_nil_r. reflexivity.
  - unfold bind, logger at 1, modify.
    destruct (IH (set_log (fun l => l ++ [LogResult res]) w))
      as (w' & Hrun & Hheap & more & Hlog).
    exists w'. split; [exact Hrun|]. split; [exact Hheap|].
    exists (LogResult res :: more). rewrite Hlog. cbn.
    rewrite <- app_assoc. reflexivity.
Qed.

Lemma report_run (w : World) :
  exists w', report w = (w', Ok tt) /\ heap w' = heap w
             /\ exists more, log w' = log w ++ more.
Proof.
  unfold report, bind at 1, logger at 1, modify.
  unfold bind at 1, get_world.
  destruct (log_each_run
              (test_results (set_log (fun l => l ++ [LogInfo "=== TEST RESULTS ==="]) w))
              (set_log (fun l => l ++ [LogInfo "=== TEST RESULTS ==="]) w))
    as (w' & Hrun & Hheap & more & Hlog).
  exists w'. split; [exact Hrun|]. split; [exact Hheap|].
  exists (LogInfo "=== TEST RESULTS ===" :: more). rewrite Hlog. cbn.
  rewrite <- app_assoc. reflexivity.
Qed.

(** [run_all_tests] after its steps: the handlers leave a world [w2]
    with the same players, then [cleanup] runs, then the report or the
    exception that was not caught. *)
Lemma run_scenario_after (steps : M unit) (w w1 : World) (res : result unit) :
  steps (set_log
           (fun l => l ++ [LogInfo "Starting comprehensive poker server tests..."])
           w) = (w1, res) ->
  exists w2,
    players w2 = players w1 /\ heap w2 = heap w1
    /\ run_scenario steps w
       = match cleanup w2 with
         | (w3, Ok _) =>
             match scenario_outcome res with
             | Ok _ => report w3
             | Raise e => (w3, Raise e)
             end
         | (w3, Raise e) => (w3, Raise e)
         end.
Proof.
  intros Hsteps.
  unfold run_scenario, report, bind, try_finally, try_except, logger, modify.
  cbv beta iota. rewrite Hsteps.
  destruct res as [[]|e].
  - exists w1. split; [reflexivity|]. split; [reflexivity|].
    cbn [scenario_outcome]. destruct (cleanup w1) as [w3 [[]|e]]; reflexivity.
  - exists (if caught e
            then set_log
                   (fun l => l ++ [match e with
                                   | KeyboardInterrupt =>
                                       LogInfo "Tests interrupted by user"
                                   | _ => LogSuiteFailed e
                                   end]) w1
            else w1).
    destruct e; cbn [scenario_outcome caught is_Exception];
      (split; [reflexivity|]); (split; [reflexivity|]);
      match goal with
      | |- _ = match cleanup ?w2 with _ => _ end =>
          destruct (cleanup w2) as [w3 [[]|e3]]; reflexivity
      end.
Qed.

(** X24: however the scenario steps end, returning, raising an
    exception or interrupted, the [finally] clause runs [cleanup] on the
    world they left: its log record is written, and every player that
    the table holds and that was connected with a connection has that
    connection closed when [run_all_tests] is over; an exception that no
    [except] clause catches is raised again only after that. *)
Theorem teardown_always_runs (steps : M unit) (w : World) :
  let w0 := set_log
              (fun l => l ++ [LogInfo "Starting comprehensive poker server tests..."])
              w in
  let w1 := fst (steps w0) in
  let final := run_scenario steps w in
  (forall key r, players w1 !! key = Some r -> is_Some (heap w1 !! r)) ->
  snd final = scenario_outcome (snd (steps w0))
  /\ LogInfo "Cleaning up connections..." ∈ log (fst final)
  /\ (forall key r p,
        players w1 !! key = Some r -> heap w1 !! r = Some p ->
        heap (fst final) !! r = Some (close_if_connected p))
  /\ (forall key r p ws,
        players w1 !! key = Some r -> heap w1 !! r = Some p ->
        connected p = true -> websocket p = Some ws ->
        heap (fst final) !! r
        = Some (set_websocket (Some (close_WebSocket ws)) p)).
Proof.
  intros w0 w1 final Hvalid.
  assert (Hmain :
            snd final = scenario_outcome (snd (steps w0))
            /\ LogInfo "Cleaning up connections..." ∈ log (fst final)
            /\ (forall key r p,
                   players w1 !! key = Some r -> heap w1 !! r = Some p ->
                   heap (fst final) !! r = Some (close_if_connected p))).
  { subst final w1. destruct (steps w0) as [w1 res] eqn:Hsteps.
    cbn [fst snd] in *.
    destruct (run_scenario_after steps w w1 res Hsteps)
      as (w2 & Hpl & Hh & ->).
    destruct (cleanup_run w2) as (w3 & Hrun & _ & Hlog & Hheap).
    { intros key r Hkey. rewrite Hpl in Hkey. rewrite Hh. eauto. }
    rewrite Hrun.
    assert (Hin : LogInfo "Cleaning up connections..." ∈ log w3).
    { rewrite Hlog. apply elem_of_app. right. left. }
    destruct (scenario_outcome res) as [[]|e].
    - destruct (report_run w3) as (w4 & Hrep & Hh4 & more & Hlog4).
      rewrite Hrep. cbn [fst snd]. split; [reflexivity|]. split.
      + rewrite Hlog4. apply elem_of_app. left. exact Hin.
      + intros key r p Hkey Hp. rewrite Hh4.
        apply (Hheap key); [rewrite Hpl|rewrite Hh]; assumption.
    - cbn [fst snd]. split; [reflexivity|]. split; [exact Hin|].
      intros key r p Hkey Hp.
      apply (Hheap key); [rewrite Hpl|rewrite Hh]; assumption. }
  destruct Hmain as (Hout & Hlog & Hclosed).
  split; [exact Hout|]. split; [exact Hlog|]. split; [exact Hclosed|].
  intros key r p ws Hkey Hp Hc Hws.
  rewrite (Hclosed key r p Hkey Hp). unfold close_if_connected.
  rewrite Hc, Hws. reflexivity.
Qed.

(** * Further properties of the methods *)

(** ** Connecting *)

Lemma fresh_ref_unused (w : World) : heap w !! fresh (dom (heap w)) = None.
Proof. apply not_elem_of_dom. apply is_fresh. Qed.

(** [create_player] against a server that accepts. *)
Lemma create_player_run (player_name : string) (w : World) :
  websockets_connect (server_url w) (connecting_world player_name w) = None ->
  let r := fresh (dom (heap w)) in
  exists w' : World,
    create_player player_name w = (w', Ok r)
    /\ heap w !! r = None
    /\ heap w' = <[r := connected_player player_name]> (heap w)
    /\ players w' = <[player_name := r]> (players w)
    /\ game_state w' = game_state w
    /\ test_results w' = test_results w
    /\ log w' = log w ++ [LogConnected player_name].
Proof.
  intros Hconnect r.
  unfold create_player, bind at 1, alloc. fold r.
  unfold try_except, bind at 1, get_world.
  change (set_heap (insert r (new_TestPlayer player_name)) w)
    with (connecting_world player_name w).
  change (server_url (connecting_world player_name w)) with (server_url w).
  rewrite Hconnect. cbn.
  eexists. split; [reflexivity|]. split; [apply fresh_ref_unused|].
  cbn. split; [|repeat split].
  rewrite alter_insert_eq, alter_insert_eq. reflexivity.
Qed.

(** X1: when the server accepts the connection, [create_player] returns
    a reference no object had, to a player that is connected over an
    open connection with nothing sent, unseated, with 1000 chips; the
    player is entered in the table under its name, and no other object,
    the snapshot, or the results change. *)
Theorem create_player_connects (player_name : string) (w : World) :
  websockets_connect (server_url w) (connecting_world player_name w) = None ->
  let r := fresh (dom (heap w)) in
  exists w' : World,
    create_player player_name w = (w', Ok r)
    /\ heap w !! r = None
    /\ heap w' = <[r := connected_player player_name]> (heap w)
    /\ players w' = <[player_name := r]> (players w)
    /\ game_state w' = game_state w
    /\ test_results w' = test_results w
    /\ log w' = log w ++ [LogConnected player_name].
Proof. apply create_player_run. Qed.

(** X2: when [websockets.connect] raises, [create_player] raises the
    same exception; the player is not entered in the table, no object
    that existed changes, and the failure is logged exactly when the
    exception is an [Exception]. *)
Theorem create_player_refused (player_name : string) (e : exn) (w : World) :
  websockets_connect (server_url w) (connecting_world player_name w) = Some e ->
  exists w' : World,
    create_player player_name w = (w', Raise e)
    /\ players w' = players w
    /\ game_state w' = game_state w
    /\ (forall r p, heap w !! r = Some p -> heap w' !! r = Some p)
    /\ log w' = if is_Exception e
                then log w ++ [LogConnectFailed player_name e]
                else log w.
Proof.
  intros Hconnect.
  unfold create_player, bind at 1, alloc.
  unfold try_except, bind at 1, get_world.
  change (set_heap (insert (fresh (dom (heap w))) (new_TestPlayer player_name)) w)
    with (connecting_world player_name w).
  change (server_url (connecting_world player_name w)) with (server_url w).
  rewrite Hconnect. cbn.
  assert (Hkept : forall r p, heap w !! r = Some p ->
            <[fresh (dom (heap w)) := new_TestPlayer player_name]> (heap w) !! r
            = Some p).
  { intros r p Hp. rewrite lookup_insert_ne; [exact Hp|].
    intros <-. rewrite fresh_ref_unused in Hp. discriminate Hp. }
  destruct (is_Exception e); cbn; eexists;
    (split; [reflexivity|]); repeat split; exact Hkept.
Qed.

(** ** The requests of the protocol *)

(** X3: [take_seat] records the seat only after the request went out.
    On an open session it sends the [takeSeat] envelope with the seat
    and then sets the player's seat, without waiting for any answer;
    when the player is not connected, or its connection is closed, it
    raises and the seat, like everything else, is left as it was. *)
Theorem take_seat_records_after_send (r : ref) (p : TestPlayer)
    (seat_number : Z) (w : World) :
  heap w !! r = Some p ->
  (connected p = false \/ websocket p = None ->
   take_seat r seat_number w = (w, Raise (NotConnected (name p))))
  /\ (forall ws, connected p = true -> websocket p = Some ws ->
        ws_open ws = false ->
        take_seat r seat_number w = (w, Raise ConnectionClosed))
  /\ (forall ws, connected p = true -> websocket p = Some ws ->
        ws_open ws = true ->
        exists w' : World,
          take_seat r seat_number w = (w', Ok tt)
          /\ heap w'
             = <[r := set_seat (Some seat_number)
                        (after_send
                           (json_dumps
                              (envelope "takeSeat"
                                 (JDict {["seat" := JInt seat_number]})))
                           ws p)]> (heap w)
          /\ players w' = players w
          /\ game_state w' = game_state w).
Proof.
  intros Hp. split; [|split].
  - intros Hclosed. unfold take_seat, bind at 1.
    rewrite (send_message_closed _ _ _ _ _ Hp Hclosed). reflexivity.
  - intros ws Hc Hws Hopen. unfold take_seat, bind at 1.
    rewrite (send_message_session_open _ _ _ _ _ _ Hp Hc Hws).
    unfold bind at 1. rewrite (ws_send_closed _ _ _ _ _ Hp Hws Hopen).
    reflexivity.
  - intros ws Hc Hws Hopen. unfold take_seat, bind at 1.
    rewrite (send_message_open _ _ _ _ _ _ Hp Hc Hws Hopen).
    unfold bind, update_player, modify, sleep, ret. cbn.
    eexists. split; [reflexivity|]. cbn. split; [|split; reflexivity].
    rewrite alter_insert_eq.
    unfold py_or. rewrite py_truthy_singleton. reflexivity.
Qed.

(** X4: on an open session, [register_player] sends exactly one frame,
    the [registerPlayer] envelope carrying the player's own name, and
    [start_game] sends exactly one frame, the [startGame] envelope whose
    data is the empty object that replaces the missing argument. *)
Theorem handshake_frames (r : ref) (p : TestPlayer) (ws : WebSocket) (w : World) :
  heap w !! r = Some p -> connected p = true -> websocket p = Some ws ->
  ws_open ws = true ->
  register_player r w
  = (sent_world r p ws "registerPlayer" (JDict {["name" := JStr (name p)]}) w,
     Ok tt)
  /\ start_game r w = (sent_world r p ws "startGame" (JDict ∅) w, Ok tt).
Proof.
  intros Hp Hc Hws Hopen. split.
  - unfold register_player, bind at 1.
    rewrite (read_player_Some _ _ _ Hp). unfold bind at 1.
    rewrite (send_message_open _ _ _ _ _ _ Hp Hc Hws Hopen).
    unfold py_or. rewrite py_truthy_singleton. reflexivity.
  - unfold start_game, bind at 1.
    rewrite (send_message_open _ _ _ _ _ _ Hp Hc Hws Hopen). reflexivity.
Qed.

(** ** Prompts that are not well typed *)

(** X5: a prompt that carries neither [canCheck] nor [callAmount] is
    answered with call, whatever else it carries: the defaults are
    "cannot check" and an amount of 0, which is a small call. *)
Theorem auto_play_defaults_to_call (r : ref) (m : gmap string json) (w : World) :
  m !! "canCheck" = None -> m !! "callAmount" = None ->
  auto_play r (JDict m) w = send_action r "call" JNull w.
Proof.
  intros Hcheck Hcall. unfold auto_play, sleep, bind, ret, lift. cbn [py_get].
  rewrite Hcheck, Hcall. reflexivity.
Qed.

(** X6: [canCheck] is tested for truth, not for being [true]: any truthy
    value makes the agent check, and then the amounts are not looked at,
    so they may be missing or of any type. *)
Theorem auto_play_checks_on_truthy (r : ref) (m : gmap string json) (v : json)
    (w : World) :
  m !! "canCheck" = Some v -> py_truthy v = true ->
  auto_play r (JDict m) w = send_action r "check" JNull w.
Proof.
  intros Hcheck Htruthy. unfold auto_play, sleep, bind, ret, lift. cbn [py_get].
  rewrite Hcheck. change (default (JBool false) (Some v)) with v.
  rewrite Htruthy. reflexivity.
Qed.

Lemma py_le_not_number v n : is_number v = false -> py_le v n = Raise TypeError.
Proof. destruct v; try discriminate; reflexivity. Qed.

Lemma py_gt_not_number v n : is_number v = false -> py_gt v n = Raise TypeError.
Proof. destruct v; try discriminate; reflexivity. Qed.

(** X7: when the agent cannot check, a [callAmount] that is not a number
    (null, a string, a list, an object) makes [auto_play] raise
    [TypeError]; so does a [minRaiseToTotalBet] that is not a number when
    the amount to call is above 50 and at most 100.  In both cases
    nothing is sent and nothing changes. *)
Theorem auto_play_type_error (r : ref) (m : gmap string json) (w : World) :
  py_truthy (default (JBool false) (m !! "canCheck")) = false ->
  (is_number (default (JInt 0) (m !! "callAmount")) = false ->
   auto_play r (JDict m) w = (w, Raise TypeError))
  /\ (py_le (default (JInt 0) (m !! "callAmount")) 50 = Ok false ->
      py_le (default (JInt 0) (m !! "callAmount")) 100 = Ok true ->
      is_number (default (JInt 0) (m !! "minRaiseToTotalBet")) = false ->
      auto_play r (JDict m) w = (w, Raise TypeError)).
Proof.
  intros Hcheck. split.
  - intros Hcall. unfold auto_play, sleep, bind, ret, lift. cbn [py_get].
    rewrite Hcheck, (py_le_not_number _ _ Hcall). reflexivity.
  - intros H50 H100 Hraise. unfold auto_play, sleep, bind, ret, lift.
    cbn [py_get]. rewrite Hcheck, H50, H100, (py_gt_not_number _ _ Hraise).
    reflexivity.
Qed.

(** ** Messages that are not well formed *)

(** X8: a frame that decodes to JSON that is not an object ends the
    listener just like a frame that is not JSON: [message.get] raises
    [AttributeError], the handler around the loop logs it, the frames
    that follow are not read, and nothing but the log changes. *)
Theorem listener_stops_on_non_object (r : ref) (p : TestPlayer) (frame : string)
    (v : json) (rest : list string) (fin : stream_end) (w : World) :
  heap w !! r = Some p -> is_Some (websocket p) ->
  json_loads frame = Some v -> is_object v = false ->
  listen_for_messages r (frame :: rest) fin w
  = (set_log (fun l => l ++ [LogListenError (name p) AttributeError]) w, Ok tt).
Proof.
  intros Hp Hws Hloads Hobj.
  rewrite (listen_for_messages_outcome _ _ _ _ _ Hp Hws).
  cbn [listen_loop]. unfold bind at 1, lift at 1. rewrite Hloads.
  assert (Hhandle : handle_server_message r v w = (w, Raise AttributeError)).
  { destruct v; try discriminate Hobj; reflexivity. }
  unfold bind at 1. rewrite Hhandle.
  unfold listener_handler. cbn [is_ConnectionClosed is_Exception].
  unfold bind. rewrite (read_player_Some _ _ _ Hp). reflexivity.
Qed.

(** X9: a [gameState] message whose [data] is not an object still
    replaces the snapshot: the assignment comes first, and only then
    does composing the log line raise [AttributeError].  No player
    object changes. *)
Theorem gameState_replaces_before_raising (r : ref) (p : TestPlayer)
    (m : gmap string json) (v : json) (w : World) :
  heap w !! r = Some p ->
  m !! "messageType" = Some (JStr "gameState") ->
  m !! "data" = Some v -> is_object v = false ->
  handle_server_message r (JDict m) w
  = (set_game_state v
       (set_log (fun l => l ++ [LogReceived (name p) (JStr "gameState")]) w),
     Raise AttributeError).
Proof.
  intros Hp Htype Hdata Hobj. rewrite (handle_gameState _ _ _ _ Hp Htype).
  rewrite Hdata. change (default (JDict ∅) (Some v)) with v.
  unfold log_game_state, bind, lift.
  destruct v; try discriminate Hobj; reflexivity.
Qed.

(** X10: seats are compared with [==], and a missing seat is [None] on
    both sides: an agent that has not taken a seat takes an [onmove]
    whose data has no seat, or a null seat, as addressed to itself and
    plays it. *)
Theorem unseated_agent_plays_seatless_prompt (r : ref) (p : TestPlayer)
    (d : gmap string json) (w : World) :
  heap w !! r = Some p -> seat p = None ->
  d !! "seat" = None \/ d !! "seat" = Some JNull ->
  handle_server_message r (envelope "onmove" (JDict d)) w
  = auto_play r (JDict d) (turn_logged p w).
Proof.
  intros Hp Hseat Hd.
  unfold handle_server_message, bind at 1, lift at 1.
  change (py_get (envelope "onmove" (JDict d)) "messageType" (JStr ""))
    with (Ok (A := json) (JStr "onmove")).
  unfold bind at 1, lift at 1.
  change (py_get (envelope "onmove" (JDict d)) "data" (JDict ∅))
    with (Ok (A := json) (JDict d)).
  unfold bind at 1. rewrite (read_player_Some _ _ _ Hp).
  unfold bind at 1, logger at 1, modify at 1.
  change (py_eq_str (JStr "onmove") "gameState") with false.
  change (py_eq_str (JStr "onmove") "onmove") with true.
  cbv iota. unfold bind at 1, lift at 1. cbn [py_get].
  unfold bind at 1. rewrite (read_player_Some r p); [|exact Hp].
  rewrite Hseat.
  assert (Heq : py_eq_seat (default JNull (d !! "seat")) None = true).
  { destruct Hd as [-> | ->]; reflexivity. }
  rewrite Heq. reflexivity.
Qed.

(** ** Whose state a listener touches *)

#[local] Instance confined_preorder r : PreOrder (confined r).
Proof.
  split.
  - intros w. unfold confined. repeat split; auto.
    intros r0 p0 Hp. exists p0. auto 10.
  - intros w1 w2 w3 (Hpl12 & Htr12 & Hn12 & H12) (Hpl23 & Htr23 & Hn23 & H23).
    unfold confined. split; [congruence|]. split; [congruence|]. split; [auto|].
    intros r0 p0 Hp.
    destruct (H12 r0 p0 Hp) as (p2 & Hp2 & Hn2 & Hs2 & Hch2 & Hc2 & Ho2).
    destruct (H23 r0 p2 Hp2) as (p3 & Hp3 & Hn3 & Hs3 & Hch3 & Hc3 & Ho3).
    exists p3. repeat split; try congruence.
    intros Hne. rewrite (Ho3 Hne). apply (Ho2 Hne).
Qed.

Lemma confined_same_heap r w w' :
  heap w' = heap w -> players w' = players w ->
  test_results w' = test_results w -> confined r w w'.
Proof.
  intros Hh Hpl Htr. unfold confined. rewrite Hh.
  repeat split; auto. intros r0 p0 Hp. exists p0. auto 10.
Qed.

Lemma confined_logger r e : preserves (confined r) (logger e).
Proof. intros w. apply confined_same_heap; reflexivity. Qed.

Lemma confined_set_game_state r v :
  preserves (confined r) (modify (set_game_state v)).
Proof. intros w. apply confined_same_heap; reflexivity. Qed.

Lemma confined_update_player r f :
  transport_only f -> preserves (confined r) (update_player r f).
Proof.
  intros Hf w. unfold confined. cbn. repeat split.
  - intros r0 Hnone. rewrite lookup_alter. case_decide; [subst|exact Hnone].
    rewrite Hnone. reflexivity.
  - intros r0 p0 Hp. destruct (decide (r = r0)) as [->|Hne].
    + exists (f p0). rewrite lookup_alter_eq, Hp.
      destruct (Hf p0) as (Hn & Hs & Hch & Hc).
      repeat split; auto. intros Hne. contradiction Hne. reflexivity.
    + exists p0. rewrite lookup_alter_ne by assumption. auto 10.
Qed.

#[local] Hint Resolve confined_logger confined_set_game_state
  confined_update_player : evolve.

Lemma confined_ws_send r frame : preserves (confined r) (ws_send r frame).
Proof. unfold ws_send. evolve. Qed.

#[local] Hint Resolve confined_ws_send : evolve.

Lemma confined_send_message r message_type data :
  preserves (confined r) (send_message r message_type data).
Proof. unfold send_message. evolve. Qed.

#[local] Hint Resolve confined_send_message : evolve.

Lemma confined_auto_play r data : preserves (confined r) (auto_play r data).
Proof. unfold auto_play, send_action. evolve. Qed.

#[local] Hint Resolve confined_auto_play : evolve.

Lemma confined_handle_server_message r message :
  preserves (confined r) (handle_server_message r message).
Proof. unfold handle_server_message. evolve. Qed.

#[local] Hint Resolve confined_handle_server_message : evolve.

(** X11: whatever frames reach the listener of an agent, and however
    handling them ends, the loop changes no other agent's object, so no
    frame ever goes out on somebody else's connection; it creates no
    object, leaves the player table and the results alone, and changes
    no name, seat, chips or [connected] flag.  Only the snapshot, the
    log and the frames sent on the agent's own connection move. *)
Theorem listener_is_confined_to_its_agent (r : ref) (frames : list string)
    (fin : stream_end) (w : World) :
  confined r w (fst (listen_loop r frames fin w)).
Proof.
  revert w. change (preserves (confined r) (listen_loop r frames fin)).
  induction frames as [|message rest IH]; cbn [listen_loop]; evolve.
Qed.

(** ** What a listener lets through *)

Section RaisesOnly.
Context (P : exn -> Prop) (Exception_P : forall e, is_Exception e = true -> P e).

Lemma raises_only_ret {A} (a : A) : raises_only P (ret a).
Proof. intros w e H. discriminate H. Qed.

Lemma raises_only_raise {A} (e : exn) : P e -> raises_only P (@raise A e).
Proof. intros He w e' H. injection H as <-. exact He. Qed.

Lemma raises_only_lift {A} (x : result A) :
  (forall e, x = Raise e -> P e) -> raises_only P (lift x).
Proof. intros Hx w e H. apply Hx. exact H. Qed.

Lemma raises_only_modify f : raises_only P (modify f).
Proof. intros w e H. discriminate H. Qed.

Lemma raises_only_read_player r : raises_only P (read_player r).
Proof.
  intros w e. unfold read_player. destruct (heap w !! r); intros H.
  - discriminate H.
  - injection H as <-. apply Exception_P. reflexivity.
Qed.

Lemma raises_only_bind {A B} (c : M A) (k : A -> M B) :
  raises_only P c -> (forall a, raises_only P (k a)) -> raises_only P (bind c k).
Proof.
  intros Hc Hk w e. unfold bind.
  specialize (Hc w). destruct (c w) as [w1 [a|e1]]; cbn in *.
  - apply Hk.
  - intros H. injection H as <-. apply Hc. reflexivity.
Qed.
End RaisesOnly.

Lemma py_get_raises v k d e : py_get v k d = Raise e -> is_Exception e = true.
Proof. destruct v; intros H; try discriminate H; injection H as <-; reflexivity. Qed.

Lemma py_le_raises v n e : py_le v n = Raise e -> is_Exception e = true.
Proof.
  destruct v as [| | |[| |]| | |]; intros H; try discriminate H;
    injection H as <-; reflexivity.
Qed.

Lemma py_gt_raises v n e : py_gt v n = Raise e -> is_Exception e = true.
Proof.
  destruct v as [| | |[| |]| | |]; intros H; try discriminate H;
    injection H as <-; reflexivity.
Qed.

Lemma py_len_raises v e : py_len v = Raise e -> is_Exception e = true.
Proof. destruct v; intros H; try discriminate H; injection H as <-; reflexivity. Qed.

(** Walks through a method body for [raises_only]. *)
Ltac raises_step HP :=
  match goal with
  | |- raises_only ?P (ret _) => apply (raises_only_ret P)
  | |- raises_only ?P (raise _) => apply (raises_only_raise P); apply HP; reflexivity
  | |- raises_only ?P (lift (py_get _ _ _)) =>
      apply (raises_only_lift P); intros ? ?; apply HP; eapply py_get_raises; eassumption
  | |- raises_only ?P (lift (py_le _ _)) =>
      apply (raises_only_lift P); intros ? ?; apply HP; eapply py_le_raises; eassumption
  | |- raises_only ?P (lift (py_gt _ _)) =>
      apply (raises_only_lift P); intros ? ?; apply HP; eapply py_gt_raises; eassumption
  | |- raises_only ?P (lift (py_len _)) =>
      apply (raises_only_lift P); intros ? ?; apply HP; eapply py_len_raises; eassumption
  | |- raises_only ?P (modify _) => apply (raises_only_modify P)
  | |- raises_only ?P (logger _) => apply (raises_only_modify P)
  | |- raises_only ?P (update_player _ _) => apply (raises_only_modify P)
  | |- raises_only ?P (sleep _) => apply (raises_only_ret P)
  | |- raises_only ?P (read_player _) => apply (raises_only_read_player P HP)
  | |- raises_only ?P (bind _ _) => apply (raises_only_bind P); [|intros ?]
  | |- raises_only _ (if ?b then _ else _) => destruct b
  | |- raises_only _ (match ?x with _ => _ end) => destruct x
  | |- _ => solve [auto]
  end.

Ltac raises HP := repeat raises_step HP.

Section RaisesExceptions.
Context (P : exn -> Prop) (Exception_P : forall e, is_Exception e = true -> P e).

Lemma raises_only_ws_send r frame : raises_only P (ws_send r frame).
Proof. unfold ws_send. raises Exception_P. Qed.

Lemma raises_only_send_message r message_type data :
  raises_only P (send_message r message_type data).
Proof.
  pose proof raises_only_ws_send. unfold send_message. raises Exception_P.
Qed.

Lemma raises_only_auto_play r data : raises_only P (auto_play r data).
Proof.
  pose proof raises_only_send_message.
  unfold auto_play, send_action. raises Exception_P.
Qed.

Lemma raises_only_handle_server_message r message :
  raises_only P (handle_server_message r message).
Proof.
  pose proof raises_only_auto_play.
  unfold handle_server_message. raises Exception_P.
Qed.
End RaisesExceptions.

Lemma listen_loop_raises r frames fin :
  raises_only (loop_may_raise fin) (listen_loop r frames fin).
Proof.
  assert (HP : forall e, is_Exception e = true -> loop_may_raise fin e)
    by (intros e He; left; exact He).
  pose proof (raises_only_handle_server_message _ HP).
  induction frames as [|message rest IH]; cbn [listen_loop].
  - destruct fin as [|e].
    + apply raises_only_ret.
    + apply raises_only_raise. right. reflexivity.
  - apply raises_only_bind.
    + apply raises_only_lift. intros e He. apply HP.
      destruct (json_loads message); [discriminate He|].
      injection He as <-. reflexivity.
    + intros data. apply raises_only_bind; [auto|intros _; exact IH].
Qed.

(** X12: no [Exception] escapes a listener.  [listen_for_messages]
    returns normally whatever the frames are and whatever handling them
    raises; it raises only when the receive itself raised something
    that is not an [Exception], and then it raises exactly that. *)
Theorem listener_contains_every_Exception (r : ref) (p : TestPlayer)
    (frames : list string) (fin : stream_end) (w : World) :
  heap w !! r = Some p ->
  snd (listen_for_messages r frames fin w) = Ok tt
  \/ exists e, fin = ReceiveRaises e /\ is_Exception e = false
               /\ snd (listen_for_messages r frames fin w) = Raise e.
Proof.
  intros Hp. unfold listen_for_messages, try_except.
  set (body := (p0 <- read_player r ;;
                match websocket p0 with
                | Some _ => listen_loop r frames fin
                | None => raise TypeError
                end)).
  assert (Hraises : raises_only (loop_may_raise fin) body).
  { subst body. apply raises_only_bind.
    - apply raises_only_read_player. intros e He. left. exact He.
    - intros p0. destruct (websocket p0).
      + apply listen_loop_raises.
      + apply raises_only_raise. left. reflexivity. }
  assert (Hkept : undisturbed w (fst (body w))).
  { subst body. revert w Hp. 
    change (forall w, heap w !! r = Some p -> undisturbed w
              (fst ((p0 <- read_player r ;;
                     match websocket p0 with
                     | Some _ => listen_loop r frames fin
                     | None => raise TypeError
                     end) w))).
    intros w _. revert w.
    change (preserves undisturbed
              (p0 <- read_player r ;;
               match websocket p0 with
               | Some _ => listen_loop r frames fin
               | None => raise TypeError
               end)).
    pose proof (undisturbed_listen_loop r frames fin). evolve. }
  specialize (Hraises w). destruct (Hkept r p Hp) as (p1 & Hp1 & _).
  destruct (body w) as [w1 [[]|e]]; cbn [fst snd] in *; [left; reflexivity|].
  destruct (is_ConnectionClosed e) eqn:Hcc.
  - left. unfold bind. rewrite (read_player_Some _ _ _ Hp1). reflexivity.
  - destruct (is_Exception e) eqn:Hex.
    + left. unfold bind. rewrite (read_player_Some _ _ _ Hp1). reflexivity.
    + right. exists e. destruct (Hraises e eq_refl) as [He|Hfin].
      * congruence.
      * auto.
Qed.

(** X13: frames are handled strictly in order, and a failure is final.
    Handling [l1 ++ l2] is handling [l1] and then [l2]; so when handling
    the frames of [l1] raises, whatever frames follow them, and however
    the stream ends, the outcome is the same world and the same
    exception. *)
Theorem listen_loop_stops_at_first_failure (r : ref) (l1 l2 : list string)
    (fin : stream_end) (w : World) :
  listen_loop r (l1 ++ l2) fin w
  = (listen_loop r l1 EndOfStream ;; listen_loop r l2 fin) w
  /\ (forall e, snd (listen_loop r l1 EndOfStream w) = Raise e ->
      listen_loop r (l1 ++ l2) fin w = listen_loop r l1 EndOfStream w).
Proof.
  assert (Happ : forall l w0,
             listen_loop r (l ++ l2) fin w0
             = match listen_loop r l EndOfStream w0 with
               | (w1, Ok _) => listen_loop r l2 fin w1
               | (w1, Raise e) => (w1, Raise e)
               end).
  { induction l as [|message rest IH]; intros w0.
    - reflexivity.
    - cbn [app listen_loop]. unfold bind, lift.
      destruct (json_loads message) as [data|]; [|reflexivity].
      destruct (handle_server_message r data w0) as [w1 [[]|e]]; [|reflexivity].
      apply IH. }
  split; [apply Happ|].
  intros e He. rewrite Happ.
  destruct (listen_loop r l1 EndOfStream w) as [w1 [[]|e1]]; cbn in He.
  - discriminate He.
  - reflexivity.
Qed.

(** ** Teardown, again *)

Lemma closing_loop_creates_nothing (refs : list ref) (w : World) (r : ref) :
  heap w !! r = None -> heap (fst (for_each refs close_player w)) !! r = None.
Proof.
  revert w. induction refs as [|x refs IH]; intros w Hnone; [exact Hnone|].
  cbn [for_each]. unfold bind.
  destruct (heap w !! x) as [px|] eqn:Hpx.
  - rewrite (close_player_run _ _ _ Hpx). apply IH. cbn.
    rewrite lookup_insert_ne; [exact Hnone|]. intros <-. congruence.
  - unfold close_player, bind, read_player. rewrite Hpx. exact Hnone.
Qed.

Lemma elem_of_table_refs (w : World) (r : ref) :
  r ∈ table_refs w <-> exists key, players w !! key = Some r.
Proof.
  unfold table_refs. rewrite list_elem_of_fmap. split.
  - intros ([key r'] & -> & Hin). exists key.
    apply elem_of_map_to_list. exact Hin.
  - intros (key & Hkey). exists (key, r). split; [reflexivity|].
    apply elem_of_map_to_list. exact Hkey.
Qed.

(** [cleanup] in full: it returns, and each object is closed or left
    alone according to the table. *)
Lemma cleanup_heap (w : World) :
  table_valid w ->
  exists w',
    cleanup w = (w', Ok tt)
    /\ players w' = players w
    /\ game_state w' = game_state w
    /\ test_results w' = test_results w
    /\ forall r, heap w' !! r = cleaned w r <$> heap w !! r.
Proof.
  intros Hvalid. unfold cleanup, bind at 1, logger, modify.
  unfold bind at 1, get_world.
  set (w0 := set_log (fun l => l ++ [LogInfo "Cleaning up connections..."]) w).
  change (map_to_list (players w0)).*2 with (table_refs w).
  destruct (closing_loop (table_refs w) w0)
    as (w' & Hrun & Hpl & Hgs & Htr & _ & Hheap).
  { intros r Hr. apply elem_of_table_refs in Hr as (key & Hkey).
    apply (Hvalid key). exact Hkey. }
  exists w'. rewrite Hrun. repeat split; try assumption.
  intros r. destruct (heap w !! r) as [p|] eqn:Hp.
  - rewrite (Hheap r p Hp). reflexivity.
  - pose proof (closing_loop_creates_nothing (table_refs w) w0 r Hp) as Hnone.
    rewrite Hrun in Hnone. exact Hnone.
Qed.



(** X15: after [cleanup], a player of the table that was connected is
    closed but still marked connected, so a later [send_message] for it
    passes the harness's own check and fails inside the transport: it
    raises [ConnectionClosed], not the not-connected error, and sends
    nothing. *)
Theorem send_after_cleanup_raises_ConnectionClosed (key : string) (r : ref)
    (p : TestPlayer) (ws : WebSocket) (message_type : string) (data : json)
    (w : World) :
  table_valid w -> players w !! key = Some r -> heap w !! r = Some p ->
  connected p = true -> websocket p = Some ws ->
  exists w1 : World,
    cleanup w = (w1, Ok tt)
    /\ heap w1 !! r = Some (set_websocket (Some (close_WebSocket ws)) p)
    /\ send_message r message_type data w1 = (w1, Raise ConnectionClosed).
Proof.
  intros Hvalid Hkey Hp Hc Hws.
  destruct (cleanup_heap w Hvalid) as (w1 & Hrun & _ & _ & _ & Hheap).
  assert (Hp1 : heap w1 !! r = Some (set_websocket (Some (close_WebSocket ws)) p)).
  { rewrite Hheap, Hp. cbn. unfold cleaned.
    rewrite bool_decide_eq_true_2
      by (apply elem_of_table_refs; exists key; exact Hkey).
    unfold close_if_connected. rewrite Hc, Hws. reflexivity. }
  exists w1. split; [exact Hrun|]. split; [exact Hp1|].
  rewrite (send_message_session_open _ _ (close_WebSocket ws) _ _ _ Hp1 Hc eq_refl).
  unfold bind. rewrite (ws_send_closed _ _ (close_WebSocket ws) _ _ Hp1 eq_refl eq_refl).
  reflexivity.
Qed.

(** X16: the transport's own failure reaches the flag through the
    listener.  When an agent whose connection is closed, but which is
    still marked connected, receives a prompt for its seat, the send of
    its answer raises [ConnectionClosed] inside the loop; the listener
    logs it, marks the agent disconnected and returns, and the frames
    that follow are not read. *)
Theorem listener_marks_disconnected_on_failed_send (r : ref) (p : TestPlayer)
    (ws : WebSocket) (t : TurnPrompt) (frame : string) (rest : list string)
    (fin : stream_end) (w : World) :
  heap w !! r = Some p -> connected p = true -> websocket p = Some ws ->
  ws_open ws = false -> seat p = Some (prompt_seat t) ->
  json_loads frame = Some (onmove t) ->
  exists w' : World,
    listen_for_messages r (frame :: rest) fin w = (w', Ok tt)
    /\ heap w' = <[r := set_connected false p]> (heap w)
    /\ log w' = log w ++ [LogReceived (name p) (JStr "onmove");
                          LogTurn (name p); LogConnectionClosed (name p)].
Proof.
  intros Hp Hc Hws Hopen Hseat Hloads.
  rewrite (listen_for_messages_outcome _ _ _ _ _ Hp (ex_intro _ ws Hws)).
  cbn [listen_loop]. unfold bind at 1, lift at 1. rewrite Hloads.
  unfold bind at 1. rewrite (handle_onmove _ _ _ _ Hp). cbv zeta.
  apply py_eq_seat_int in Hseat. rewrite Hseat.
  rewrite auto_play_decides. cbv zeta. unfold send_action.
  rewrite (send_message_session_open r p ws _ _ (turn_logged p w) Hp Hc Hws).
  unfold bind at 1.
  rewrite (ws_send_closed r p ws _ (turn_logged p w) Hp Hws Hopen).
  unfold listener_handler. cbn [is_ConnectionClosed].
  unfold bind. rewrite (read_player_Some r p (turn_logged p w) Hp). cbn.
  eexists. split; [reflexivity|]. cbn. split.
  - apply (alter_lookup_insert _ _ _ _ Hp).
  - rewrite <- !app_assoc. reflexivity.
Qed.

(** X18: the table holds one player per name, and [cleanup] closes only
    what the table holds.  When two players are created under the same
    name, the second takes the first one's entry; after [cleanup] the
    second is closed, while the first is still connected over an open
    connection that the harness no longer reaches. *)
Theorem reused_name_escapes_cleanup (player_name : string) (w : World) :
  table_valid w ->
  (forall url w0, websockets_connect url w0 = None) ->
  exists (r1 r2 : ref) (w1 w2 w3 : World),
    create_player player_name w = (w1, Ok r1)
    /\ create_player player_name w1 = (w2, Ok r2)
    /\ cleanup w2 = (w3, Ok tt)
    /\ r1 <> r2
    /\ players w2 !! player_name = Some r2
    /\ heap w3 !! r1 = Some (connected_player player_name)
    /\ heap w3 !! r2
       = Some (set_websocket
                 (Some (close_WebSocket {| ws_open := true; ws_sent := [] |}))
                 (connected_player player_name)).
Proof.
  intros Hvalid Haccept.
  destruct (create_player_run player_name w (Haccept _ _))
    as (w1 & Hrun1 & Hfresh1 & Hheap1 & Hpl1 & _).
  destruct (create_player_run player_name w1 (Haccept _ _))
    as (w2 & Hrun2 & Hfresh2 & Hheap2 & Hpl2 & _).
  set (r1 := fresh (dom (heap w))) in *.
  set (r2 := fresh (dom (heap w1))) in *.
  assert (Hne : r1 <> r2).
  { intros E. rewrite <- E, Hheap1, lookup_insert_eq in Hfresh2.
    discriminate Hfresh2. }
  assert (Hvalid2 : table_valid w2).
  { intros key r Hkey. rewrite Hpl2 in Hkey. rewrite Hheap2.
    destruct (decide (player_name = key)) as [->|Hk].
    - rewrite lookup_insert_eq in Hkey. injection Hkey as <-.
      rewrite lookup_insert_eq. eauto.
    - rewrite lookup_insert_ne in Hkey by assumption.
      rewrite Hpl1, lookup_insert_ne in Hkey by assumption.
      destruct (Hvalid key r Hkey) as [p Hp].
      assert (Hr1 : r1 <> r) by (intros <-; congruence).
      assert (Hp1 : heap w1 !! r = Some p)
        by (rewrite Hheap1, lookup_insert_ne; assumption).
      assert (Hr2 : r2 <> r) by (intros <-; congruence).
      rewrite lookup_insert_ne by assumption. eauto. }
  destruct (cleanup_heap w2 Hvalid2) as (w3 & Hrun3 & _ & _ & _ & Hheap3).
  exists r1, r2, w1, w2, w3.
  split; [exact Hrun1|]. split; [exact Hrun2|]. split; [exact Hrun3|].
  split; [exact Hne|]. split; [rewrite Hpl2; apply lookup_insert_eq|]. split.
  - rewrite Hheap3, Hheap2, lookup_insert_ne by (intros E; apply Hne; auto).
    rewrite Hheap1, lookup_insert_eq. cbn. unfold cleaned.
    rewrite bool_decide_eq_false_2; [reflexivity|].
    intros Hin. apply elem_of_table_refs in Hin as (key & Hkey).
    rewrite Hpl2 in Hkey.
    destruct (decide (player_name = key)) as [->|Hk].
    + rewrite lookup_insert_eq in Hkey. injection Hkey as E. auto.
    + rewrite lookup_insert_ne in Hkey by assumption.
      rewrite Hpl1, lookup_insert_ne in Hkey by assumption.
      destruct (Hvalid key r1 Hkey) as [p Hp]. congruence.
  - rewrite Hheap3, Hheap2, lookup_insert_eq. cbn. unfold cleaned.
    rewrite bool_decide_eq_true_2; [reflexivity|].
    apply elem_of_table_refs. exists player_name.
    rewrite Hpl2. apply lookup_insert_eq.
Qed.

(** ** The test methods *)

Section RaisesMore.
Context (P : exn -> Prop) (Exception_P : forall e, is_Exception e = true -> P e).

Lemma raises_only_try_except {A} (c : M A) (h : exn -> option (M A)) :
  raises_only P c -> (forall e k, h e = Some k -> raises_only P k) ->
  raises_only P (try_except c h).
Proof.
  intros Hc Hh w e. unfold try_except.
  specialize (Hc w). destruct (c w) as [w1 [a|e1]]; cbn in *.
  - intros H. discriminate H.
  - destruct (h e1) as [k|] eqn:Hk.
    + apply (Hh e1 k Hk).
    + intros H. injection H as <-. apply Hc. reflexivity.
Qed.

Lemma raises_only_for_each {A} (xs : list A) (body : A -> M unit) :
  (forall x, raises_only P (body x)) -> raises_only P (for_each xs body).
Proof.
  intros Hbody. induction xs as [|x xs IH]; cbn [for_each].
  - apply raises_only_ret.
  - apply raises_only_bind; [apply Hbody|intros _; exact IH].
Qed.

Lemma raises_only_returns {A} (c : M A) :
  (forall w, exists a, snd (c w) = Ok a) -> raises_only P c.
Proof. intros Hc w e H. destruct (Hc w) as [a Ha]. congruence. Qed.

Lemma raises_only_lookup_player key : raises_only P (lookup_player key).
Proof.
  intros w e. unfold lookup_player. destruct (players w !! key); intros H.
  - discriminate H.
  - injection H as <-. apply Exception_P. reflexivity.
Qed.

Lemma raises_only_ws_close r : raises_only P (ws_close r).
Proof. unfold ws_close. raises Exception_P. Qed.

Lemma raises_only_create_player player_name :
  (forall url w e, websockets_connect url w = Some e -> P e) ->
  raises_only P (create_player player_name).
Proof.
  intros Hconnect w e. unfold create_player, bind at 1, alloc.
  unfold try_except, bind at 1, get_world.
  destruct (websockets_connect _ _) as [e1|] eqn:Hc; cbn.
  - destruct (is_Exception e1); cbn; intros H; injection H as <-;
      apply (Hconnect _ _ _ Hc).
  - intros H. discriminate H.
Qed.
End RaisesMore.

(** Walks through the body of a test method for [raises_only]. *)
Ltac raises_test_step HP :=
  match goal with
  | |- raises_only ?P (try_except _ _) =>
      apply (raises_only_try_except P); [|intros ? ? ?]
  | |- raises_only ?P (for_each _ _) => apply (raises_only_for_each P); intros ?
  | |- raises_only ?P get_world =>
      apply (raises_only_returns P); intros ?; eexists; reflexivity
  | |- raises_only ?P (has_player _) =>
      apply (raises_only_returns P); intros ?; eexists; reflexivity
  | |- raises_only ?P (record_result _) => apply (raises_only_modify P)
  | |- raises_only ?P (lookup_player _) => apply (raises_only_lookup_player P HP)
  | |- raises_only ?P (ws_close _) => apply (raises_only_ws_close P HP)
  | |- raises_only ?P (send_message _ _ _) => apply (raises_only_send_message P HP)
  | |- raises_only ?P (send_action _ _ _) => apply (raises_only_send_message P HP)
  | H : report_failure _ _ = Some _ |- _ => unfold report_failure in H
  | H : (if ?b then _ else _) = Some _ |- _ => destruct b; [|try discriminate H]
  | H : Some _ = Some _ |- _ => injection H as <-
  | |- _ => raises_step HP
  end.

Ltac raises_test HP := repeat raises_test_step HP.

Lemma records_pass_record (t : string) : records_pass t (record_result (Passed t)).
Proof. intros w w' a H. injection H as <- _. eexists. reflexivity. Qed.

Lemma records_pass_bind {A B} (t : string) (c : M A) (k : A -> M B) :
  (forall a, records_pass t (k a)) -> records_pass t (bind c k).
Proof.
  intros Hk w w' b. unfold bind. destruct (c w) as [w1 [a|e]].
  - apply Hk.
  - intros H. discriminate H.
Qed.

Ltac records := cbv zeta; repeat (apply records_pass_bind; intros ?);
                apply records_pass_record.

(** A [try] whose body ends by recording a pass and raises only
    exceptions, under the handler that records the failure. *)
Lemma guarded_test_reports (t : string) (c : M unit) (w : World) :
  raises_only an_Exception c -> records_pass t c ->
  reports t (try_except c (report_failure t) w).
Proof.
  intros Hraises Hrec. unfold reports, try_except.
  specialize (Hraises w). specialize (Hrec w).
  destruct (c w) as [w1 [[]|e]]; cbn [fst snd] in *.
  - split; [reflexivity|]. destruct (Hrec w1 tt eq_refl) as [w0 ->].
    exists w0, (Passed t). auto.
  - unfold report_failure. rewrite (Hraises e eq_refl). cbn.
    split; [reflexivity|]. exists w1, (Failed t e). eauto.
Qed.

Section TestMethods.
Context (connect_raises_Exception :
           forall url w e, websockets_connect url w = Some e -> an_Exception e).

Lemma Exception_an (e : exn) : is_Exception e = true -> an_Exception e.
Proof. intros H. exact H. Qed.

Lemma raises_create_player player_name :
  raises_only an_Exception (create_player player_name).
Proof. apply raises_only_create_player. exact connect_raises_Exception. Qed.

Lemma raises_register_player r : raises_only an_Exception (register_player r).
Proof. unfold register_player. raises_test Exception_an. Qed.

Lemma raises_take_seat r n : raises_only an_Exception (take_seat r n).
Proof. unfold take_seat. raises_test Exception_an. Qed.

Lemma raises_start_game r : raises_only an_Exception (start_game r).
Proof. unfold start_game. raises_test Exception_an. Qed.

Lemma raises_seat_all names n : raises_only an_Exception (seat_all names n).
Proof.
  pose proof raises_take_seat.
  revert n. induction names as [|player_name rest IH]; intros n;
    cbn [seat_all]; raises_test Exception_an.
Qed.

Lemma test_basic_connection_reports w :
  reports "Basic connection" (test_basic_connection w).
Proof.
  unfold test_basic_connection, bind at 1, logger at 1, modify at 1.
  apply guarded_test_reports; [|records].
  pose proof raises_create_player. raises_test Exception_an.
Qed.

Lemma test_player_registration_reports w :
  reports "Player registration" (test_player_registration w).
Proof.
  unfold test_player_registration, bind at 1, logger at 1, modify at 1.
  apply guarded_test_reports; [|records].
  pose proof raises_create_player. pose proof raises_register_player.
  raises_test Exception_an.
Qed.

Lemma test_seat_management_reports w :
  reports "Seat management" (test_seat_management w).
Proof.
  unfold test_seat_management, bind at 1, logger at 1, modify at 1.
  apply guarded_test_reports; [|records].
  pose proof raises_take_seat.
  assert (raises_only an_Exception test_player_registration).
  { apply raises_only_returns. intros w0. exists tt.
    apply test_player_registration_reports. }
  raises_test Exception_an.
Qed.

Lemma test_game_flow_reports w : reports "Game flow" (test_game_flow w).
Proof.
  unfold test_game_flow, bind at 1, logger at 1, modify at 1.
  apply guarded_test_reports; [|records].
  pose proof raises_create_player. pose proof raises_register_player.
  pose proof raises_seat_all. pose proof raises_start_game.
  cbv zeta. raises_test Exception_an.
Qed.

Lemma test_manual_actions_reports w :
  reports "Manual actions" (test_manual_actions w).
Proof.
  unfold test_manual_actions, bind at 1, logger at 1, modify at 1.
  apply guarded_test_reports; [|records].
  pose proof raises_create_player. pose proof raises_register_player.
  pose proof raises_take_seat. pose proof raises_start_game.
  raises_test Exception_an.
Qed.

Lemma test_methods_reports_all (w : World) :
  reports "Basic connection" (test_basic_connection w)
  /\ reports "Player registration" (test_player_registration w)
  /\ reports "Seat management" (test_seat_management w)
  /\ reports "Manual actions" (test_manual_actions w)
  /\ reports "Game flow" (test_game_flow w).
Proof.
  split; [apply test_basic_connection_reports|].
  split; [apply test_player_registration_reports|].
  split; [apply test_seat_management_reports|].
  split; [apply test_manual_actions_reports|apply test_game_flow_reports].
Qed.

(** Each test method is its banner followed by its [try]. *)
Lemma test_methods_are_guarded :
  test_basic_connection
  = (logger (LogInfo "=== Testing Basic Connection ===") ;;
     try_except basic_connection_body (report_failure "Basic connection"))
  /\ test_player_registration
     = (logger (LogInfo "=== Testing Player Registration ===") ;;
        try_except player_registration_body (report_failure "Player registration"))
  /\ test_seat_management
     = (logger (LogInfo "=== Testing Seat Management ===") ;;
        try_except seat_management_body (report_failure "Seat management"))
  /\ test_manual_actions
     = (logger (LogInfo "=== Testing Manual Actions ===") ;;
        try_except manual_actions_body (report_failure "Manual actions"))
  /\ test_game_flow
     = (logger (LogInfo "=== Testing Game Flow ===") ;;
        try_except game_flow_body (report_failure "Game flow")).
Proof. repeat split. Qed.

Lemma guarded_test_verdict (banner t : string) (body : M unit) (w : World) :
  raises_only an_Exception body -> records_pass t body ->
  test_verdict banner t body w
    ((logger (LogInfo banner) ;; try_except body (report_failure t)) w).
Proof.
  intros Hraises Hrec.
  unfold test_verdict, bind, logger, modify, try_except.
  set (started := set_log (fun l => l ++ [LogInfo banner]) w).
  specialize (Hraises started). specialize (Hrec started).
  destruct (body started) as [w2 [[]|e]]; cbn [snd] in *.
  - split; [reflexivity|]. apply (Hrec w2 tt eq_refl).
  - unfold report_failure. rewrite (Hraises e eq_refl). reflexivity.
Qed.

Lemma basic_connection_body_raises : raises_only an_Exception basic_connection_body.
Proof.
  unfold basic_connection_body.
  pose proof raises_create_player. raises_test Exception_an.
Qed.

Lemma player_registration_body_raises :
  raises_only an_Exception player_registration_body.
Proof.
  unfold player_registration_body.
  pose proof raises_create_player. pose proof raises_register_player.
  raises_test Exception_an.
Qed.

Lemma seat_management_body_raises : raises_only an_Exception seat_management_body.
Proof.
  unfold seat_management_body.
  pose proof raises_take_seat.
  assert (raises_only an_Exception test_player_registration).
  { apply raises_only_returns. intros w0. exists tt.
    apply test_player_registration_reports. }
  raises_test Exception_an.
Qed.

Lemma game_flow_body_raises : raises_only an_Exception game_flow_body.
Proof.
  unfold game_flow_body.
  pose proof raises_create_player. pose proof raises_register_player.
  pose proof raises_seat_all. pose proof raises_start_game.
  cbv zeta. raises_test Exception_an.
Qed.

Lemma manual_actions_body_raises : raises_only an_Exception manual_actions_body.
Proof.
  unfold manual_actions_body.
  pose proof raises_create_player. pose proof raises_register_player.
  pose proof raises_take_seat. pose proof raises_start_game.
  raises_test Exception_an.
Qed.

(** X17: provided [websockets.connect] raises nothing but [Exception]s,
    each of the five test methods returns normally from any state of the
    harness, and the last thing it does is to append its own verdict to
    the results: passed when its body ran through, failed with the
    exception the body raised otherwise.  A failed test never stops the
    suite. *)
Theorem test_methods_always_report (w : World) :
  test_verdict "=== Testing Basic Connection ===" "Basic connection"
    basic_connection_body w (test_basic_connection w)
  /\ test_verdict "=== Testing Player Registration ===" "Player registration"
       player_registration_body w (test_player_registration w)
  /\ test_verdict "=== Testing Seat Management ===" "Seat management"
       seat_management_body w (test_seat_management w)
  /\ test_verdict "=== Testing Manual Actions ===" "Manual actions"
       manual_actions_body w (test_manual_actions w)
  /\ test_verdict "=== Testing Game Flow ===" "Game flow"
       game_flow_body w (test_game_flow w).
Proof.
  destruct test_methods_are_guarded as (-> & -> & -> & -> & ->).
  split; [apply guarded_test_verdict;
          [apply basic_connection_body_raises|unfold basic_connection_body; records]|].
  split; [apply guarded_test_verdict;
          [apply player_registration_body_raises
          |unfold player_registration_body; records]|].
  split; [apply guarded_test_verdict;
          [apply seat_management_body_raises|unfold seat_management_body; records]|].
  split; [apply guarded_test_verdict;
          [apply manual_actions_body_raises|unfold manual_actions_body; records]|].
  apply guarded_test_verdict;
    [apply game_flow_body_raises|unfold game_flow_body; records].
Qed.

End TestMethods.

(** ** The whole suite *)

#[local] Instance keeps_valid_preorder : PreOrder keeps_valid.
Proof. split; [intros w H; exact H|intros w1 w2 w3 H12 H23 H; auto]. Qed.

Lemma keeps_valid_same w w' :
  heap w' = heap w -> players w' = players w -> keeps_valid w w'.
Proof. intros Hh Hpl Hvalid key r. rewrite Hh, Hpl. apply Hvalid. Qed.

Lemma keeps_valid_logger e : preserves keeps_valid (logger e).
Proof. intros w. apply keeps_valid_same; reflexivity. Qed.

Lemma keeps_valid_record_result res : preserves keeps_valid (record_result res).
Proof. intros w. apply keeps_valid_same; reflexivity. Qed.

Lemma keeps_valid_has_player k : preserves keeps_valid (has_player k).
Proof. intros w. reflexivity. Qed.

Lemma keeps_valid_lookup_player k : preserves keeps_valid (lookup_player k).
Proof. intros w. unfold lookup_player. destruct (players w !! k); reflexivity. Qed.

Lemma keeps_valid_update_player r f : preserves keeps_valid (update_player r f).
Proof.
  intros w Hvalid key r0 Hkey. cbn in *.
  destruct (Hvalid key r0 Hkey) as [p Hp].
  rewrite lookup_alter. case_decide; subst; rewrite Hp; eauto.
Qed.

#[local] Hint Resolve keeps_valid_logger keeps_valid_record_result
  keeps_valid_has_player keeps_valid_lookup_player
  keeps_valid_update_player : evolve.

Lemma keeps_valid_ws_send r frame : preserves keeps_valid (ws_send r frame).
Proof. unfold ws_send. evolve. Qed.

Lemma keeps_valid_ws_close r : preserves keeps_valid (ws_close r).
Proof. unfold ws_close. evolve. Qed.

#[local] Hint Resolve keeps_valid_ws_send keeps_valid_ws_close : evolve.

Lemma keeps_valid_send_message r message_type data :
  preserves keeps_valid (send_message r message_type data).
Proof. unfold send_message. evolve. Qed.

#[local] Hint Resolve keeps_valid_send_message : evolve.

Lemma keeps_valid_send_action r a data :
  preserves keeps_valid (send_action r a data).
Proof. unfold send_action. evolve. Qed.

Lemma keeps_valid_register_player r : preserves keeps_valid (register_player r).
Proof. unfold register_player. evolve. Qed.

Lemma keeps_valid_take_seat r n : preserves keeps_valid (take_seat r n).
Proof. unfold take_seat. evolve. Qed.

Lemma keeps_valid_start_game r : preserves keeps_valid (start_game r).
Proof. unfold start_game. evolve. Qed.

Lemma keeps_valid_create_player player_name :
  preserves keeps_valid (create_player player_name).
Proof.
  intros w Hvalid. unfold create_player, bind at 1, alloc.
  unfold try_except, bind at 1, get_world.
  assert (Hgrown : forall r (h : gmap ref TestPlayer) x,
             is_Some (heap w !! r) ->
             h = <[fresh (dom (heap w)) := x]> (heap w) -> is_Some (h !! r)).
  { intros r h x [p Hp] ->. rewrite lookup_insert. case_decide; eauto. }
  destruct (websockets_connect _ _) as [e|]; cbn.
  - destruct (is_Exception e); cbn; intros key r Hkey; cbn in *;
      apply (Hgrown r _ (new_TestPlayer player_name)); auto;
      apply (Hvalid key); exact Hkey.
  - intros key r Hkey. cbn in *.
    rewrite alter_insert_eq, alter_insert_eq.
    destruct (decide (player_name = key)) as [->|Hk].
    + rewrite lookup_insert_eq in Hkey. injection Hkey as <-.
      rewrite lookup_insert_eq. eauto.
    + rewrite lookup_insert_ne in Hkey by assumption.
      eapply Hgrown; [apply (Hvalid key); exact Hkey|reflexivity].
Qed.

#[local] Hint Resolve keeps_valid_send_action keeps_valid_register_player
  keeps_valid_take_seat keeps_valid_start_game keeps_valid_create_player : evolve.

Lemma keeps_valid_seat_all names n : preserves keeps_valid (seat_all names n).
Proof.
  revert n. induction names as [|player_name rest IH]; intros n;
    cbn [seat_all]; evolve.
Qed.

Lemma keeps_valid_test_basic_connection : preserves keeps_valid test_basic_connection.
Proof. unfold test_basic_connection. evolve. Qed.

Lemma keeps_valid_test_player_registration :
  preserves keeps_valid test_player_registration.
Proof. unfold test_player_registration. evolve. Qed.

#[local] Hint Resolve keeps_valid_seat_all keeps_valid_test_basic_connection
  keeps_valid_test_player_registration : evolve.

Lemma keeps_valid_test_seat_management : preserves keeps_valid test_seat_management.
Proof. unfold test_seat_management. evolve. Qed.

Lemma keeps_valid_test_game_flow : preserves keeps_valid test_game_flow.
Proof. unfold test_game_flow. evolve. Qed.

Lemma keeps_valid_test_manual_actions : preserves keeps_valid test_manual_actions.
Proof. unfold test_manual_actions. evolve. Qed.

#[local] Hint Resolve keeps_valid_test_seat_management keeps_valid_test_game_flow
  keeps_valid_test_manual_actions : evolve.

Lemma keeps_valid_all_tests : preserves keeps_valid all_tests.
Proof. unfold all_tests. evolve. Qed.

Lemma report_keeps_table (w : World) :
  players (fst (report w)) = players w.
Proof.
  unfold report, bind at 1, logger at 1, modify at 1.
  unfold bind at 1, get_world.
  set (w0 := set_log (fun l => l ++ [LogInfo "=== TEST RESULTS ==="]) w).
  change (players w) with (players w0).
  generalize (test_results w0). intros results. generalize w0. clear w0.
  induction results as [|res results IH]; intros w0; [reflexivity|].
  cbn [for_each]. unfold bind, logger at 1, modify. rewrite IH. reflexivity.
Qed.

(** X19: the suite as a whole.  Provided [websockets.connect] raises
    nothing but [Exception]s, [run_all_tests] run on a harness whose table
    is in order, a new harness in particular, returns normally, and when
    it is over no player of the table that is marked connected is left
    with an open connection. *)
Theorem run_all_tests_leaves_no_open_connection (w : World) :
  (forall url w0 e, websockets_connect url w0 = Some e -> an_Exception e) ->
  table_valid w ->
  exists w' : World,
    run_all_tests w = (w', Ok tt)
    /\ forall key r p ws,
         players w' !! key = Some r -> heap w' !! r = Some p ->
         connected p = true -> websocket p = Some ws -> ws_open ws = false.
Proof.
  intros Hconnect Hvalid.
  set (w0 := set_log
               (fun l => l ++ [LogInfo "Starting comprehensive poker server tests..."])
               w).
  assert (Hok : forall w1, snd (all_tests w1) = Ok tt).
  { intros w1. unfold all_tests, bind.
    pose proof (test_methods_reports_all Hconnect) as Hall.
    destruct (Hall w1) as ((H1 & _) & _).
    destruct (test_basic_connection w1) as [wa [[]|e]]; [|discriminate H1].
    destruct (Hall wa) as (_ & (H2 & _) & _).
    destruct (test_player_registration wa) as [wb [[]|e]]; [|discriminate H2].
    destruct (Hall wb) as (_ & _ & (H3 & _) & _).
    destruct (test_seat_management wb) as [wc [[]|e]]; [|discriminate H3].
    destruct (Hall wc) as (_ & _ & _ & (H4 & _) & _).
    destruct (test_manual_actions wc) as [wd [[]|e]]; [|discriminate H4].
    destruct (Hall wd) as (_ & _ & _ & _ & (H5 & _)). exact H5. }
  assert (Hvalid1 : table_valid (fst (all_tests w0))).
  { apply keeps_valid_all_tests. exact Hvalid. }
  specialize (Hok w0).
  destruct (all_tests w0) as [w1 res] eqn:Hsteps. cbn [fst snd] in *. subst res.
  destruct (run_scenario_after all_tests w w1 (Ok tt) Hsteps)
    as (w2 & Hpl2 & Hh2 & Hrun).
  assert (Hvalid2 : table_valid w2).
  { intros key r. rewrite Hpl2, Hh2. apply Hvalid1. }
  destruct (cleanup_heap w2 Hvalid2) as (w3 & Hclean & Hpl3 & _ & _ & Hheap3).
  rewrite Hclean in Hrun. cbn [scenario_outcome] in Hrun.
  destruct (report_run w3) as (w4 & Hrep & Hh4 & _).
  pose proof (report_keeps_table w3) as Hpl4. rewrite Hrep in Hrun, Hpl4.
  cbn [fst] in Hpl4.
  exists w4. split; [exact Hrun|].
  intros key r p ws Hkey Hp Hc Hws.
  rewrite Hpl4, Hpl3 in Hkey. rewrite Hh4, Hheap3 in Hp.
  destruct (heap w2 !! r) as [p0|]; [|discriminate Hp].
  cbn in Hp. injection Hp as <-. unfold cleaned in *.
  rewrite bool_decide_eq_true_2 in *
    by (apply elem_of_table_refs; exists key; exact Hkey).
  unfold close_if_connected in *.
  destruct (connected p0) eqn:Hc0; cbn [andb] in *; [|congruence].
  destruct (websocket p0) as [ws0|] eqn:Hws0; cbn in *.
  - injection Hws as <-. reflexivity.
  - congruence.
Qed.

(** ** When the snapshot changes *)

#[local] Instance same_snapshot_preorder : PreOrder same_snapshot.
Proof.
  split; [intros w; reflexivity|].
  intros w1 w2 w3 H12 H23. unfold same_snapshot in *. congruence.
Qed.

Lemma same_snapshot_logger e : preserves same_snapshot (logger e).
Proof. intros w. reflexivity. Qed.

Lemma same_snapshot_update_player r f : preserves same_snapshot (update_player r f).
Proof. intros w. reflexivity. Qed.

#[local] Hint Resolve same_snapshot_logger same_snapshot_update_player : evolve.

Lemma same_snapshot_ws_send r frame : preserves same_snapshot (ws_send r frame).
Proof. unfold ws_send. evolve. Qed.

#[local] Hint Resolve same_snapshot_ws_send : evolve.

Lemma same_snapshot_send_message r message_type data :
  preserves same_snapshot (send_message r message_type data).
Proof. unfold send_message. evolve. Qed.

#[local] Hint Resolve same_snapshot_send_message : evolve.

Lemma same_snapshot_auto_play r data : preserves same_snapshot (auto_play r data).
Proof. unfold auto_play, send_action. evolve. Qed.

#[local] Hint Resolve same_snapshot_auto_play : evolve.

Lemma bind_lift_Ok {A B} (a : A) (k : A -> M B) : bind (lift (Ok a)) k = k a.
Proof. reflexivity. Qed.

(** X20: the snapshot changes on [gameState] messages only.  Handling
    any other message, a prompt the agent answers included, or a message
    that is not an object, leaves the tracker's snapshot as it was,
    whether the handler returns or raises. *)
Theorem snapshot_changes_on_gameState_only (r : ref) (message : json) (w : World) :
  (forall m, message = JDict m ->
             default (JStr "") (m !! "messageType") <> JStr "gameState") ->
  game_state (fst (handle_server_message r message w)) = game_state w.
Proof.
  intros Hnot. destruct message as [| | | | | |m]; try reflexivity.
  specialize (Hnot m eq_refl).
  revert w. change (preserves same_snapshot (handle_server_message r (JDict m))).
  unfold handle_server_message. cbn [py_get]. rewrite !bind_lift_Ok.
  rewrite (py_eq_str_false _ _ Hnot). evolve.
Qed.

(** ** What the game-flow test needs *)

#[local] Instance no_new_Alice_preorder : PreOrder no_new_Alice.
Proof. split; [intros w H; exact H|intros w1 w2 w3 H12 H23 H; auto]. Qed.

Lemma no_new_Alice_same w w' : players w' = players w -> no_new_Alice w w'.
Proof. intros Hpl H. rewrite Hpl. exact H. Qed.

Lemma no_new_Alice_logger e : preserves no_new_Alice (logger e).
Proof. intros w. apply no_new_Alice_same. reflexivity. Qed.

Lemma no_new_Alice_update_player r f : preserves no_new_Alice (update_player r f).
Proof. intros w. apply no_new_Alice_same. reflexivity. Qed.

Lemma no_new_Alice_has_player k : preserves no_new_Alice (has_player k).
Proof. intros w. reflexivity. Qed.

Lemma no_new_Alice_lookup_player k : preserves no_new_Alice (lookup_player k).
Proof. intros w. unfold lookup_player. destruct (players w !! k); reflexivity. Qed.

#[local] Hint Resolve no_new_Alice_logger no_new_Alice_update_player
  no_new_Alice_has_player no_new_Alice_lookup_player : evolve.

Lemma no_new_Alice_ws_send r frame : preserves no_new_Alice (ws_send r frame).
Proof. unfold ws_send. evolve. Qed.

#[local] Hint Resolve no_new_Alice_ws_send : evolve.

Lemma no_new_Alice_send_message r message_type data :
  preserves no_new_Alice (send_message r message_type data).
Proof. unfold send_message. evolve. Qed.

#[local] Hint Resolve no_new_Alice_send_message : evolve.

Lemma no_new_Alice_register_player r : preserves no_new_Alice (register_player r).
Proof. unfold register_player. evolve. Qed.

Lemma no_new_Alice_take_seat r n : preserves no_new_Alice (take_seat r n).
Proof. unfold take_seat. evolve. Qed.

Lemma no_new_Alice_create_player player_name :
  player_name <> "Alice" -> preserves no_new_Alice (create_player player_name).
Proof.
  intros Hname w Hnone. unfold create_player, bind at 1, alloc.
  unfold try_except, bind at 1, get_world.
  destruct (websockets_connect _ _) as [e|]; cbn.
  - destruct (is_Exception e); exact Hnone.
  - rewrite lookup_insert_ne by assumption. exact Hnone.
Qed.

#[local] Hint Resolve no_new_Alice_register_player no_new_Alice_take_seat : evolve.

Lemma no_new_Alice_seat_all names n : preserves no_new_Alice (seat_all names n).
Proof.
  revert n. induction names as [|player_name rest IH]; intros n;
    cbn [seat_all]; evolve.
Qed.

(** The part of [test_game_flow] that comes before the look-up of
    Alice. *)
Lemma no_new_Alice_game_flow_setup :
  preserves no_new_Alice
    (for_each ["Charlie"; "Dave"; "Eve"; "Frank"]
       (fun player_name =>
          present <- has_player player_name ;;
          if present then ret tt
          else player <- create_player player_name ;;
               register_player player) ;;
     seat_all ["Charlie"; "Dave"; "Eve"; "Frank"] 3).
Proof.
  pose proof no_new_Alice_seat_all.
  assert (forall player_name, player_name <> "Alice" ->
            preserves no_new_Alice (create_player player_name))
    by apply no_new_Alice_create_player.
  cbn [for_each]. evolve.
  all: match goal with
       | |- preserves _ (create_player _) =>
           apply no_new_Alice_create_player; discriminate
       end.
Qed.

(** X21: the game-flow test relies on an earlier test having created
    Alice: it creates Charlie, Dave, Eve and Frank itself, but asks the
    table for Alice to start the game.  Run on a harness without a
    player called Alice, it never passes, whatever the server does: if it
    returns at all, the verdict it appends is a failure. *)
Theorem game_flow_needs_Alice (w w' : World) :
  players w !! "Alice" = None ->
  test_game_flow w = (w', Ok tt) ->
  exists (w0 : World) (e : exn),
    w' = set_test_results (fun l => l ++ [Failed "Game flow" e]) w0.
Proof.
  intros Hnone Hrun.
  unfold test_game_flow, bind at 1, logger at 1, modify at 1 in Hrun.
  cbv zeta in Hrun. unfold try_except in Hrun.
  set (w1 := set_log (fun l => l ++ [LogInfo "=== Testing Game Flow ==="]) w) in *.
  assert (Hbody : forall (A : Type) (c1 c2 : M unit) (k : M A) (w0 : World),
             (c1 ;; c2 ;; k) w0
             = match (c1 ;; c2) w0 with
               | (w2, Ok _) => k w2
               | (w2, Raise e) => (w2, Raise e)
               end).
  { intros A c1 c2 k w0. unfold bind.
    destruct (c1 w0) as [wa [[]|e]]; [|reflexivity].
    destruct (c2 wa) as [wb [[]|e]]; reflexivity. }
  rewrite Hbody in Hrun. clear Hbody.
  pose proof (no_new_Alice_game_flow_setup w1 Hnone) as Hstill.
  match type of Hstill with
  | context [fst ?out] => destruct out as [w2 [[]|e]]
  end; cbn [fst] in Hstill.
  - unfold bind at 1, lookup_player in Hrun. cbv beta in Hrun.
    rewrite Hstill in Hrun. cbn in Hrun.
    injection Hrun as <-. eexists _, _. reflexivity.
  - unfold report_failure in Hrun. destruct (is_Exception e); cbn in Hrun.
    + injection Hrun as <-. eexists _, _. reflexivity.
    + discriminate Hrun.
Qed.

(** ** Prompts of any shape *)

Lemma py_le_raises_TypeError v n e : py_le v n = Raise e -> e = TypeError.
Proof.
  destruct v as [| | |[| |]| | |]; intros H; try discriminate H;
    injection H as <-; reflexivity.
Qed.

Lemma py_gt_raises_TypeError v n e : py_gt v n = Raise e -> e = TypeError.
Proof.
  destruct v as [| | |[| |]| | |]; intros H; try discriminate H;
    injection H as <-; reflexivity.
Qed.

(** X22: whatever the data of a prompt is, [auto_play] either raises
    [AttributeError] or [TypeError] before sending anything, leaving the
    world as it was, or does exactly one [send_action], of check, call,
    raise or fold: never two actions, never another message type. *)
Theorem auto_play_one_action_at_most (r : ref) (move_data : json) (w : World) :
  (exists e, auto_play r move_data w = (w, Raise e)
             /\ (e = AttributeError \/ e = TypeError))
  \/ (exists (action_name : string) (data : json),
        action_name ∈ ["check"; "call"; "raise"; "fold"]
        /\ auto_play r move_data w = send_action r action_name data w).
Proof.
  destruct move_data as [| | | | | |m];
    try (left; exists AttributeError; split; [reflexivity|left; reflexivity]).
  unfold auto_play, sleep. cbn [py_get]. unfold bind at 1, ret at 1.
  rewrite !bind_lift_Ok.
  destruct (py_truthy (default (JBool false) (m !! "canCheck"))).
  { right. exists "check", JNull. split; [repeat constructor|reflexivity]. }
  unfold bind at 1, lift at 1.
  destruct (py_le (default (JInt 0) (m !! "callAmount")) 50) as [[|]|e] eqn:H50.
  - right. exists "call", JNull. split; [repeat constructor|reflexivity].
  - unfold bind at 1, lift at 1.
    destruct (py_le (default (JInt 0) (m !! "callAmount")) 100) as [[|]|e] eqn:H100.
    + unfold bind at 1, lift at 1.
      destruct (py_gt (default (JInt 0) (m !! "minRaiseToTotalBet")) 0)
        as [[|]|e] eqn:Hgt.
      * right. eexists "raise", _. split; [repeat constructor|reflexivity].
      * right. exists "fold", JNull. split; [repeat constructor|reflexivity].
      * left. exists e. split; [reflexivity|].
        right. apply (py_gt_raises_TypeError _ _ _ Hgt).
    + unfold bind at 1, ret at 1.
      right. exists "fold", JNull. split; [repeat constructor|reflexivity].
    + left. exists e. split; [reflexivity|].
      right. apply (py_le_raises_TypeError _ _ _ H100).
  - left. exists e. split; [reflexivity|].
    right. apply (py_le_raises_TypeError _ _ _ H50).
Qed.

(** X23: an amount to call that is NaN or +Infinity is never called and
    never raised: every comparison with it is false, so an agent that
    cannot check folds, whatever the minimum raise is. *)
Theorem auto_play_folds_on_NaN_and_infinity (r : ref) (seat_number : Z)
    (min_raise : number) (w : World) :
  auto_play r
    (prompt_data {| prompt_seat := seat_number; can_check := false;
                    call_amount := NFloat FNan;
                    min_raise_to_total_bet := min_raise |}) w
  = send_action r "fold" JNull w
  /\ auto_play r
       (prompt_data {| prompt_seat := seat_number; can_check := false;
                       call_amount := NFloat (FInf false);
                       min_raise_to_total_bet := min_raise |}) w
     = send_action r "fold" JNull w.
Proof. split; rewrite auto_play_decides; reflexivity. Qed.

End Harness.

(** * Concrete runs *)

(** Alice sends a call: the session is open, so no not-connected error. *)
Lemma send_message_not_connected_iff_witness :
  heap one_agent !! 0%nat = Some alice
  /\ (snd (send_message type_dumps 0%nat "call" JNull one_agent)
      = Raise (NotConnected (name alice))
      <-> connected alice = false \/ websocket alice = None).
Proof.
  split; [reflexivity|].
  exact (proj1 (send_message_not_connected_iff type_dumps 0%nat alice "call"
                  JNull one_agent eq_refl)).
Defined.

(** Alice answers the prompt for seat 1 and ignores the one for seat 2. *)
Lemma one_action_per_addressed_prompt_witness :
  let mine := {| prompt_seat := 1; can_check := false;
                 call_amount := NInt 20; min_raise_to_total_bet := NInt 40 |} in
  let other := {| prompt_seat := 2; can_check := false;
                  call_amount := NInt 20; min_raise_to_total_bet := NInt 40 |} in
  (heap one_agent !! 0%nat = Some alice /\ connected alice = true
   /\ websocket alice = Some alice_connection /\ ws_open alice_connection = true)
  /\ (exists (a : action) (w' : World),
        handle_server_message type_dumps 0%nat (onmove mine) one_agent = (w', Ok tt)
        /\ heap w'
           = <[0%nat := after_send (type_dumps (action_envelope a))
                          alice_connection alice]> (heap one_agent)
        /\ action_type a ∈ ["check"; "call"; "raise"; "fold"])
  /\ (exists w' : World,
        handle_server_message type_dumps 0%nat (onmove other) one_agent = (w', Ok tt)
        /\ heap w' = heap one_agent).
Proof.
  intros mine other. split; [repeat split|]. split.
  - apply (proj1 (one_action_per_addressed_prompt type_dumps 0%nat alice
                    alice_connection mine one_agent
                    eq_refl eq_refl eq_refl eq_refl)).
    reflexivity.
  - apply (proj2 (one_action_per_addressed_prompt type_dumps 0%nat alice
                    alice_connection other one_agent
                    eq_refl eq_refl eq_refl eq_refl)).
    discriminate.
Defined.

(** Scenario B on Alice. *)
Lemma scenario_B_check_witness :
  (heap one_agent !! 0%nat = Some alice /\ seat alice = Some 1
   /\ connected alice = true /\ websocket alice = Some alice_connection
   /\ ws_open alice_connection = true)
  /\ exists w' : World,
       handle_server_message type_dumps 0%nat
         (envelope "onmove"
            (JDict (<["seat" := JInt 1]>
                    (<["canCheck" := JBool true]>
                     (<["callAmount" := JInt 0]>
                      (<["minRaiseToTotalBet" := JInt 0]> ∅))))))
         one_agent = (w', Ok tt)
       /\ heap w'
          = <[0%nat := after_send (type_dumps (envelope "check" (JDict ∅)))
                         alice_connection alice]> (heap one_agent)
       /\ game_state w' = game_state one_agent
       /\ players w' = players one_agent.
Proof.
  split; [repeat split|].
  exact (scenario_B_check type_dumps 0%nat alice alice_connection one_agent
           eq_refl eq_refl eq_refl eq_refl eq_refl).
Defined.

(** Scenario C on Alice. *)
Lemma scenario_C_raise_witness :
  (heap one_agent !! 0%nat = Some alice /\ connected alice = true
   /\ websocket alice = Some alice_connection /\ ws_open alice_connection = true)
  /\ decision 50 100
       {| prompt_seat := 1; can_check := false;
          call_amount := NInt 75; min_raise_to_total_bet := NInt 150 |}
     = RaiseTo (NInt 150).
Proof.
  split; [repeat split|].
  exact (proj1 (scenario_C_raise type_dumps 0%nat alice alice_connection 1
                  one_agent eq_refl eq_refl eq_refl eq_refl)).
Defined.

(** An envelope without [messageType] reaches Alice. *)
Lemma unrecognized_message_changes_nothing_witness :
  (heap one_agent !! 0%nat = Some alice
   /\ (∅ : gmap string json) !! "messageType" = None)
  /\ exists w' : World,
       handle_server_message type_dumps 0%nat (JDict ∅) one_agent = (w', Ok tt)
       /\ game_state w' = game_state one_agent
       /\ heap w' = heap one_agent
       /\ players w' = players one_agent
       /\ test_results w' = test_results one_agent
       /\ log w' = log one_agent
                   ++ [LogReceived (name alice)
                         (default (JStr "") ((∅ : gmap string json) !! "messageType"))].
Proof.
  split; [split; reflexivity|].
  exact (unrecognized_message_changes_nothing type_dumps 0%nat alice ∅ one_agent
           eq_refl (or_introl eq_refl)).
Defined.

(** Two snapshots reach Alice, the second one stays. *)
Lemma tracker_holds_latest_snapshot_witness :
  is_Some (heap one_agent !! 0%nat)
  /\ game_state
       (deliver type_dumps
          ([(0%nat, gameState (JDict {["pot" := JInt 30]}))]
           ++ [(0%nat, gameState snapshot)]) one_agent)
     = snapshot.
Proof.
  split; [exists alice; reflexivity|].
  exact (tracker_holds_latest_snapshot type_dumps
           [(0%nat, gameState (JDict {["pot" := JInt 30]}))] 0%nat snapshot
           one_agent (ex_intro _ alice eq_refl)).
Defined.

(** Alice's stream ends with [ConnectionClosed]. *)
Lemma connected_flag_cleared_on_ConnectionClosed_only_witness :
  (heap one_agent !! 0%nat = Some alice /\ is_Some (websocket alice))
  /\ exists p',
       heap (fst (listen_for_messages one_snapshot type_dumps 0%nat []
                    (ReceiveRaises ConnectionClosed) one_agent)) !! 0%nat = Some p'
       /\ connected p'
          = if ends_with_ConnectionClosed one_snapshot type_dumps 0%nat []
                 (ReceiveRaises ConnectionClosed) one_agent
            then false else connected alice.
Proof.
  split; [split; [reflexivity|exists alice_connection; reflexivity]|].
  exact (proj1 (connected_flag_cleared_on_ConnectionClosed_only one_snapshot
                  type_dumps always_connects 0%nat alice []
                  (ReceiveRaises ConnectionClosed) one_agent eq_refl
                  (ex_intro _ alice_connection eq_refl))).
Defined.

(** A frame that is not JSON reaches Alice before a snapshot. *)
Lemma listener_skips_unrecognized_stops_on_undecodable_witness :
  (heap one_agent !! 0%nat = Some alice /\ is_Some (websocket alice)
   /\ one_snapshot "not json" = None)
  /\ listen_for_messages one_snapshot type_dumps 0%nat
       ["not json"; "snapshot"] EndOfStream one_agent
     = (set_log (fun l => l ++ [LogListenError (name alice) JSONDecodeError])
          one_agent, Ok tt).
Proof.
  split; [split; [reflexivity|split; [exists alice_connection; reflexivity|reflexivity]]|].
  exact (proj2 (listener_skips_unrecognized_stops_on_undecodable one_snapshot
                  type_dumps 0%nat alice "not json" ["snapshot"] EndOfStream
                  one_agent eq_refl (ex_intro _ alice_connection eq_refl))
           eq_refl).
Defined.

(** The scenario is interrupted at once; Alice is closed all the same. *)
Lemma teardown_always_runs_witness :
  snd (raise (A := unit) KeyboardInterrupt
         (set_log
            (fun l => l ++ [LogInfo "Starting comprehensive poker server tests..."])
            one_agent))
  = Raise KeyboardInterrupt
  /\ heap (fst (run_scenario (raise KeyboardInterrupt) one_agent)) !! 0%nat
     = Some (set_websocket (Some (close_WebSocket alice_connection)) alice).
Proof.
  split; [reflexivity|].
  refine (proj2 (proj2 (proj2
            (teardown_always_runs (raise KeyboardInterrupt) one_agent _)))
            "Alice" 0%nat alice alice_connection eq_refl eq_refl eq_refl eq_refl).
  intros key r Hkey. cbn in Hkey.
  apply lookup_singleton_Some in Hkey as [_ <-].
  exists alice. reflexivity.
Defined.

(** Against C5 as stated: a frame that is not JSON ends the listener, and
    the well-formed snapshot that follows it on the same connection is
    never handled, although alone it would have been. *)
Lemma malformed_frame_ends_the_listener :
  one_snapshot "not json" = None
  /\ game_state (fst (listen_for_messages one_snapshot type_dumps 0%nat
                        ["snapshot"] EndOfStream one_agent))
     = snapshot
  /\ game_state (fst (listen_for_messages one_snapshot type_dumps 0%nat
                        ["not json"; "snapshot"] EndOfStream one_agent))
     = game_state one_agent
  /\ game_state one_agent <> snapshot.
Proof.
  split; [reflexivity|]. split; [reflexivity|]. split; [reflexivity|].
  intros H.
  apply (f_equal (fun v => match v with
                           | JDict m => m !! "pot"
                           | _ => None
                           end)) in H.
  vm_compute in H. discriminate H.
Defined.

(** Against C6 as stated: a receive failure that is not
    [ConnectionClosed] ends the listener and leaves the agent marked
    connected. *)
Lemma other_receive_failure_keeps_flag :
  is_ConnectionClosed (TransportError 1006) = false
  /\ snd (listen_for_messages one_snapshot type_dumps 0%nat []
            (ReceiveRaises (TransportError 1006)) one_agent) = Ok tt
  /\ connected <$> heap (fst (listen_for_messages one_snapshot type_dumps 0%nat []
                                (ReceiveRaises (TransportError 1006)) one_agent))
                   !! 0%nat
     = Some true.
Proof. split; [reflexivity|]. split; reflexivity. Defined.

(** * Concrete runs of the further properties *)

Lemma create_player_connects_witness :
  always_connects (server_url one_agent) (connecting_world "Bob" one_agent) = None
  /\ exists w' : World,
       create_player always_connects "Bob" one_agent
       = (w', Ok (fresh (dom (heap one_agent))))
       /\ heap one_agent !! fresh (dom (heap one_agent)) = None
       /\ heap w' = <[fresh (dom (heap one_agent)) := connected_player "Bob"]>
                      (heap one_agent)
       /\ players w' = <["Bob" := fresh (dom (heap one_agent))]> (players one_agent)
       /\ game_state w' = game_state one_agent
       /\ test_results w' = test_results one_agent
       /\ log w' = log one_agent ++ [LogConnected "Bob"].
Proof.
  split; [reflexivity|].
  exact (create_player_connects always_connects "Bob" one_agent eq_refl).
Defined.

Lemma create_player_refused_witness :
  always_refuses (server_url one_agent) (connecting_world "Bob" one_agent)
  = Some (TransportError 111)
  /\ exists w' : World,
       create_player always_refuses "Bob" one_agent
       = (w', Raise (TransportError 111))
       /\ players w' = players one_agent
       /\ game_state w' = game_state one_agent
       /\ (forall r p, heap one_agent !! r = Some p -> heap w' !! r = Some p)
       /\ log w' = if is_Exception (TransportError 111)
                   then log one_agent
                        ++ [LogConnectFailed "Bob" (TransportError 111)]
                   else log one_agent.
Proof.
  split; [reflexivity|].
  exact (create_player_refused always_refuses "Bob" (TransportError 111)
           one_agent eq_refl).
Defined.

Lemma take_seat_records_after_send_witness :
  heap stale_agent !! 0%nat = Some stale_alice
  /\ take_seat type_dumps 0%nat 4 stale_agent = (stale_agent, Raise ConnectionClosed).
Proof.
  split; [reflexivity|].
  exact (proj1 (proj2 (take_seat_records_after_send type_dumps 0%nat stale_alice
                         4 stale_agent eq_refl))
           stale_connection eq_refl eq_refl eq_refl).
Defined.

Lemma handshake_frames_witness :
  (heap one_agent !! 0%nat = Some alice /\ connected alice = true
   /\ websocket alice = Some alice_connection /\ ws_open alice_connection = true)
  /\ start_game type_dumps 0%nat one_agent
     = (sent_world type_dumps 0%nat alice alice_connection "startGame" (JDict ∅)
          one_agent, Ok tt).
Proof.
  split; [repeat split|].
  exact (proj2 (handshake_frames type_dumps 0%nat alice alice_connection one_agent
                  eq_refl eq_refl eq_refl eq_refl)).
Defined.

Lemma auto_play_defaults_to_call_witness :
  ((∅ : gmap string json) !! "canCheck" = None
   /\ (∅ : gmap string json) !! "callAmount" = None)
  /\ auto_play type_dumps 0%nat (JDict ∅) one_agent
     = send_action type_dumps 0%nat "call" JNull one_agent.
Proof.
  split; [split; reflexivity|].
  exact (auto_play_defaults_to_call type_dumps 0%nat ∅ one_agent eq_refl eq_refl).
Defined.

Lemma auto_play_checks_on_truthy_witness :
  (({["canCheck" := JInt 1]} : gmap string json) !! "canCheck" = Some (JInt 1)
   /\ py_truthy (JInt 1) = true)
  /\ auto_play type_dumps 0%nat (JDict {["canCheck" := JInt 1]}) one_agent
     = send_action type_dumps 0%nat "check" JNull one_agent.
Proof.
  split; [split; reflexivity|].
  exact (auto_play_checks_on_truthy type_dumps 0%nat {["canCheck" := JInt 1]}
           (JInt 1) one_agent eq_refl eq_refl).
Defined.

Lemma auto_play_type_error_witness :
  let m : gmap string json := {["callAmount" := JStr "ten"]} in
  (py_truthy (default (JBool false) (m !! "canCheck")) = false
   /\ is_number (default (JInt 0) (m !! "callAmount")) = false)
  /\ auto_play type_dumps 0%nat (JDict m) one_agent = (one_agent, Raise TypeError).
Proof.
  intros m. split; [split; reflexivity|].
  exact (proj1 (auto_play_type_error type_dumps 0%nat m one_agent eq_refl) eq_refl).
Defined.

Lemma listener_stops_on_non_object_witness :
  (heap one_agent !! 0%nat = Some alice /\ is_Some (websocket alice)
   /\ three_frames "list" = Some (JList []) /\ is_object (JList []) = false)
  /\ listen_for_messages three_frames type_dumps 0%nat ["list"; "snapshot"]
       EndOfStream one_agent
     = (set_log (fun l => l ++ [LogListenError (name alice) AttributeError])
          one_agent, Ok tt).
Proof.
  split; [split; [reflexivity|split; [exists alice_connection; reflexivity|split; reflexivity]]|].
  exact (listener_stops_on_non_object three_frames type_dumps 0%nat alice "list"
           (JList []) ["snapshot"] EndOfStream one_agent eq_refl
           (ex_intro _ alice_connection eq_refl) eq_refl eq_refl).
Defined.

Lemma gameState_replaces_before_raising_witness :
  let m : gmap string json :=
    <["messageType" := JStr "gameState"]> (<["data" := JInt 7]> ∅) in
  (heap one_agent !! 0%nat = Some alice
   /\ m !! "messageType" = Some (JStr "gameState")
   /\ m !! "data" = Some (JInt 7) /\ is_object (JInt 7) = false)
  /\ handle_server_message type_dumps 0%nat (JDict m) one_agent
     = (set_game_state (JInt 7)
          (set_log (fun l => l ++ [LogReceived (name alice) (JStr "gameState")])
             one_agent),
        Raise AttributeError).
Proof.
  intros m. split; [repeat split|].
  exact (gameState_replaces_before_raising type_dumps 0%nat alice m (JInt 7)
           one_agent eq_refl eq_refl eq_refl eq_refl).
Defined.

Lemma unseated_agent_plays_seatless_prompt_witness :
  (heap unseated_agent !! 0%nat = Some unseated_alice
   /\ seat unseated_alice = None
   /\ (∅ : gmap string json) !! "seat" = None)
  /\ handle_server_message type_dumps 0%nat (envelope "onmove" (JDict ∅))
       unseated_agent
     = auto_play type_dumps 0%nat (JDict ∅)
         (turn_logged unseated_alice unseated_agent).
Proof.
  split; [repeat split|].
  exact (unseated_agent_plays_seatless_prompt type_dumps 0%nat unseated_alice ∅
           unseated_agent eq_refl eq_refl (or_introl eq_refl)).
Defined.

Lemma listener_contains_every_Exception_witness :
  heap one_agent !! 0%nat = Some alice
  /\ (snd (listen_for_messages three_frames type_dumps 0%nat ["list"]
             (ReceiveRaises KeyboardInterrupt) one_agent) = Ok tt
      \/ exists e, ReceiveRaises KeyboardInterrupt = ReceiveRaises e
                   /\ is_Exception e = false
                   /\ snd (listen_for_messages three_frames type_dumps 0%nat
                             ["list"] (ReceiveRaises KeyboardInterrupt) one_agent)
                      = Raise e).
Proof.
  split; [reflexivity|].
  exact (listener_contains_every_Exception three_frames type_dumps 0%nat alice
           ["list"] (ReceiveRaises KeyboardInterrupt) one_agent eq_refl).
Defined.

Lemma one_agent_table_valid : table_valid one_agent.
Proof.
  intros key r Hkey. cbn in Hkey.
  apply lookup_singleton_Some in Hkey as [_ <-]. exists alice. reflexivity.
Defined.


Lemma send_after_cleanup_raises_ConnectionClosed_witness :
  (table_valid one_agent /\ players one_agent !! "Alice" = Some 0%nat
   /\ heap one_agent !! 0%nat = Some alice /\ connected alice = true
   /\ websocket alice = Some alice_connection)
  /\ exists w1 : World,
       cleanup one_agent = (w1, Ok tt)
       /\ heap w1 !! 0%nat
          = Some (set_websocket (Some (close_WebSocket alice_connection)) alice)
       /\ send_message type_dumps 0%nat "call" JNull w1 = (w1, Raise ConnectionClosed).
Proof.
  split; [split; [exact one_agent_table_valid|repeat split]|].
  exact (send_after_cleanup_raises_ConnectionClosed type_dumps "Alice" 0%nat alice
           alice_connection "call" JNull one_agent one_agent_table_valid
           eq_refl eq_refl eq_refl eq_refl).
Defined.

Lemma listener_marks_disconnected_on_failed_send_witness :
  (heap stale_agent !! 0%nat = Some stale_alice /\ connected stale_alice = true
   /\ websocket stale_alice = Some stale_connection
   /\ ws_open stale_connection = false
   /\ seat stale_alice = Some (prompt_seat seat_one_prompt)
   /\ three_frames "prompt" = Some (onmove seat_one_prompt))
  /\ exists w' : World,
       listen_for_messages three_frames type_dumps 0%nat ["prompt"; "snapshot"]
         EndOfStream stale_agent = (w', Ok tt)
       /\ heap w' = <[0%nat := set_connected false stale_alice]> (heap stale_agent)
       /\ log w' = log stale_agent
                   ++ [LogReceived (name stale_alice) (JStr "onmove");
                       LogTurn (name stale_alice);
                       LogConnectionClosed (name stale_alice)].
Proof.
  split; [repeat split|].
  exact (listener_marks_disconnected_on_failed_send three_frames type_dumps 0%nat
           stale_alice stale_connection seat_one_prompt "prompt" ["snapshot"]
           EndOfStream stale_agent eq_refl eq_refl eq_refl eq_refl eq_refl eq_refl).
Defined.

Lemma always_connects_raises_nothing :
  forall url w e, always_connects url w = Some e -> an_Exception e.
Proof. intros url w e H. discriminate H. Defined.

Lemma test_methods_always_report_witness :
  (forall url w e, always_connects url w = Some e -> an_Exception e)
  /\ test_verdict "=== Testing Basic Connection ===" "Basic connection"
       (basic_connection_body always_connects)
       (new_PokerServerTest "ws://localhost:8888")
       (test_basic_connection always_connects
          (new_PokerServerTest "ws://localhost:8888")).
Proof.
  split; [exact always_connects_raises_nothing|].
  exact (proj1 (test_methods_always_report type_dumps always_connects
                  always_connects_raises_nothing
                  (new_PokerServerTest "ws://localhost:8888"))).
Defined.

Lemma reused_name_escapes_cleanup_witness :
  (table_valid one_agent /\ forall url w0, always_connects url w0 = None)
  /\ exists (r1 r2 : ref) (w1 w2 w3 : World),
       create_player always_connects "Bob" one_agent = (w1, Ok r1)
       /\ create_player always_connects "Bob" w1 = (w2, Ok r2)
       /\ cleanup w2 = (w3, Ok tt)
       /\ r1 <> r2
       /\ players w2 !! "Bob" = Some r2
       /\ heap w3 !! r1 = Some (connected_player "Bob")
       /\ heap w3 !! r2
          = Some (set_websocket
                    (Some (close_WebSocket {| ws_open := true; ws_sent := [] |}))
                    (connected_player "Bob")).
Proof.
  split; [split; [exact one_agent_table_valid|reflexivity]|].
  exact (reused_name_escapes_cleanup always_connects "Bob" one_agent
           one_agent_table_valid (fun _ _ => eq_refl)).
Defined.

Lemma new_harness_table_valid (url : string) : table_valid (new_PokerServerTest url).
Proof. intros key r Hkey. cbn in Hkey. rewrite lookup_empty in Hkey. discriminate Hkey. Defined.

Lemma run_all_tests_leaves_no_open_connection_witness :
  ((forall url w e, always_connects url w = Some e -> an_Exception e)
   /\ table_valid (new_PokerServerTest "ws://localhost:8888"))
  /\ exists w' : World,
       run_all_tests type_dumps always_connects
         (new_PokerServerTest "ws://localhost:8888") = (w', Ok tt)
       /\ forall key r p ws,
            players w' !! key = Some r -> heap w' !! r = Some p ->
            connected p = true -> websocket p = Some ws -> ws_open ws = false.
Proof.
  split; [split; [exact always_connects_raises_nothing|apply new_harness_table_valid]|].
  exact (run_all_tests_leaves_no_open_connection type_dumps always_connects
           (new_PokerServerTest "ws://localhost:8888")
           always_connects_raises_nothing (new_harness_table_valid _)).
Defined.

Lemma snapshot_changes_on_gameState_only_witness :
  (forall m, onmove seat_one_prompt = JDict m ->
             default (JStr "") (m !! "messageType") <> JStr "gameState")
  /\ game_state (fst (handle_server_message type_dumps 0%nat
                        (onmove seat_one_prompt) one_agent))
     = game_state one_agent.
Proof.
  assert (H : forall m, onmove seat_one_prompt = JDict m ->
                        default (JStr "") (m !! "messageType") <> JStr "gameState").
  { intros m Hm. injection Hm as <-. vm_compute. discriminate. }
  split; [exact H|].
  exact (snapshot_changes_on_gameState_only type_dumps 0%nat
           (onmove seat_one_prompt) one_agent H).
Defined.

Lemma game_flow_needs_Alice_witness :
  let w := new_PokerServerTest "ws://localhost:8888" in
  (players w !! "Alice" = None
   /\ test_game_flow type_dumps always_connects w
      = (fst (test_game_flow type_dumps always_connects w), Ok tt))
  /\ exists (w0 : World) (e : exn),
       fst (test_game_flow type_dumps always_connects w)
       = set_test_results (fun l => l ++ [Failed "Game flow" e]) w0.
Proof.
  intros w.
  assert (Hrun : test_game_flow type_dumps always_connects w
                 = (fst (test_game_flow type_dumps always_connects w), Ok tt)).
  { destruct (test_methods_reports_all type_dumps always_connects
                always_connects_raises_nothing w) as (_ & _ & _ & _ & Hok & _).
    destruct (test_game_flow type_dumps always_connects w) as [w1 res].
    cbn in *. rewrite Hok. reflexivity. }
  split; [split; [reflexivity|exact Hrun]|].
  exact (game_flow_needs_Alice type_dumps always_connects w _ eq_refl Hrun).
Defined.

(** Against C8 as stated: Alice is marked connected and has a connection
    object, so her session is open in the sense of the check in
    [send_message]; but the connection was closed under her, and the
    send raises [ConnectionClosed]: no frame goes out, nothing changes. *)
Lemma stale_session_sends_nothing :
  (connected stale_alice = true /\ websocket stale_alice = Some stale_connection)
  /\ heap stale_agent !! 0%nat = Some stale_alice
  /\ send_message type_dumps 0%nat "call" JNull stale_agent
     = (stale_agent, Raise ConnectionClosed).
Proof. split; [split; reflexivity|]. split; reflexivity. Defined.

(** C9: [run_all_tests] on a new harness, against a server that refuses
    Bob's first connection and accepts all others.  The first
    registration test creates Alice, fails on Bob and is reported
    failed; the seat test finds no Bob and runs the registration test
    again, which creates a second Alice under the same name.  The suite
    returns normally and teardown has run, yet the first Alice, object
    1, is still marked connected over an open connection: the table
    holds the second Alice, object 3, and [cleanup] closes only what the
    table holds. *)
Theorem teardown_misses_the_overwritten_player :
  let run := run_all_tests type_dumps refuses_second_registration
               (new_PokerServerTest "ws://localhost:8888") in
  snd run = Ok tt
  /\ test_results (fst run)
     = [Passed "Basic connection";
        Failed "Player registration" (TransportError 111);
        Passed "Player registration"; Passed "Seat management";
        Passed "Manual actions"; Passed "Game flow"]
  /\ LogInfo "Cleaning up connections..." ∈ log (fst run)
  /\ heap (fst run) !! 1%nat = Some (connected_player "Alice")
  /\ connected (connected_player "Alice") = true
  /\ websocket (connected_player "Alice")
     = Some {| ws_open := true; ws_sent := [] |}
  /\ players (fst run) !! "Alice" = Some 3%nat
  /\ (websocket <$> heap (fst run) !! 3%nat)
     = Some (Some {| ws_open := false;
                     ws_sent := ["registerPlayer"; "takeSeat"; "startGame"] |}).
Proof.
  intros run.
  split; [vm_compute; reflexivity|]. split; [vm_compute; reflexivity|].
  split.
  { apply list_elem_of_In. vm_compute.
    repeat (first [left; reflexivity | right]). }
  repeat split; vm_compute; reflexivity.
Qed.
